(** * openvr_math.h: quaternion, vector, matrix and projection arithmetic

    A shallow embedding of [alvr/server/cpp/alvr_server/include/openvr_math.h].

    The header computes on the C++ types [double] and [float].  Every
    function is embedded once, over an abstract scalar type with the
    arithmetic the header uses; the operations are applied in the order and
    with the association of the C++ expressions.  Two interpretations are
    given: the real numbers (exact arithmetic) and IEEE 754 binary32 and
    binary64 (the standard library's [SpecFloat]). *)

From Stdlib Require Import List Bool ZArith Lia.
From Stdlib Require Import Reals Lra.
From Stdlib Require Import Floats.SpecFloat.
Import ListNotations.

Set Implicit Arguments.

(** ** Scalars *)

(** The arithmetic of one C++ floating type.  The constants are the
    literals of the header ([0.0f], [1.0], [2.f], [0.5], [0.25] and the
    integers [0] and [2] after the usual conversion). *)
Class Scalar (T : Type) : Type := {
  s_zero : T;
  s_one : T;
  s_two : T;
  s_half : T;
  s_quarter : T;
  s_add : T -> T -> T;
  s_sub : T -> T -> T;
  s_mul : T -> T -> T;
  s_div : T -> T -> T;
  s_neg : T -> T;
  s_gt : T -> T -> bool;
  s_lt : T -> T -> bool
}.

(** The functions of [<cmath>] the header calls. *)
Class Libm (T : Type) : Type := {
  m_sqrt : T -> T;
  m_cos : T -> T;
  m_sin : T -> T
}.

(** The implicit conversion of a [float] operand to [double]. *)
Class Promote (F D : Type) : Type := {
  promote : F -> D
}.

Declare Scope scalar_scope.
Delimit Scope scalar_scope with S.
Notation "a + b" := (s_add a b) : scalar_scope.
Notation "a - b" := (s_sub a b) : scalar_scope.
Notation "a * b" := (s_mul a b) : scalar_scope.
Notation "a / b" := (s_div a b) : scalar_scope.
Notation "- a" := (s_neg a) : scalar_scope.
Notation "a >? b" := (s_gt a b) (at level 70) : scalar_scope.
Notation "a <? b" := (s_lt a b) (at level 70) : scalar_scope.

(** ** Fixed-size arrays *)

(** [T a[3]] and [T a[4]].  Every index in the header is a literal or a
    loop counter below the bound, so the clauses for an index out of range
    are never reached. *)
Record array3 (T : Type) : Type := Arr3 { a3_0 : T; a3_1 : T; a3_2 : T }.
Record array4 (T : Type) : Type :=
  Arr4 { a4_0 : T; a4_1 : T; a4_2 : T; a4_3 : T }.

Definition get3 {T} (a : array3 T) (i : nat) : T :=
  match i with
  | 0 => a3_0 a
  | 1 => a3_1 a
  | _ => a3_2 a
  end.

Definition set3 {T} (a : array3 T) (i : nat) (e : T) : array3 T :=
  match i with
  | 0 => Arr3 e (a3_1 a) (a3_2 a)
  | 1 => Arr3 (a3_0 a) e (a3_2 a)
  | 2 => Arr3 (a3_0 a) (a3_1 a) e
  | _ => a
  end.

Definition get4 {T} (a : array4 T) (i : nat) : T :=
  match i with
  | 0 => a4_0 a
  | 1 => a4_1 a
  | 2 => a4_2 a
  | _ => a4_3 a
  end.

Definition set4 {T} (a : array4 T) (i : nat) (e : T) : array4 T :=
  match i with
  | 0 => Arr4 e (a4_1 a) (a4_2 a) (a4_3 a)
  | 1 => Arr4 (a4_0 a) e (a4_2 a) (a4_3 a)
  | 2 => Arr4 (a4_0 a) (a4_1 a) e (a4_3 a)
  | 3 => Arr4 (a4_0 a) (a4_1 a) (a4_2 a) e
  | _ => a
  end.

(** ** The OpenVR value types *)

(** [struct HmdQuaternion_t { double w, x, y, z; }] *)
Record HmdQuaternion_t (T : Type) : Type :=
  Quat { w : T; x : T; y : T; z : T }.

(** [struct HmdVector3d_t { double v[3]; }] *)
Record HmdVector3d_t (T : Type) : Type := Vec3d { v3d : array3 T }.

(** [struct HmdVector3_t { float v[3]; }] *)
Record HmdVector3_t (T : Type) : Type := Vec3 { v3 : array3 T }.

(** [struct HmdVector4_t { float v[4]; }] *)
Record HmdVector4_t (T : Type) : Type := Vec4 { v4 : array4 T }.

(** [struct HmdMatrix34_t { float m[3][4]; }] *)
Record HmdMatrix34_t (T : Type) : Type := Mat34 { m34 : array3 (array4 T) }.

(** [struct HmdMatrix44_t { float m[4][4]; }] *)
Record HmdMatrix44_t (T : Type) : Type := Mat44 { m44 : array4 (array4 T) }.

(** [a.m[i][j]] and [a.m[i][j] = e] on both matrix types. *)
Definition get34 {T} (a : HmdMatrix34_t T) (i j : nat) : T :=
  get4 (get3 (m34 a) i) j.

Definition set34 {T} (a : HmdMatrix34_t T) (i j : nat) (e : T)
  : HmdMatrix34_t T :=
  Mat34 (set3 (m34 a) i (set4 (get3 (m34 a) i) j e)).

Definition get44 {T} (a : HmdMatrix44_t T) (i j : nat) : T :=
  get4 (get4 (m44 a) i) j.

Definition set44 {T} (a : HmdMatrix44_t T) (i j : nat) (e : T)
  : HmdMatrix44_t T :=
  Mat44 (set4 (m44 a) i (set4 (get4 (m44 a) i) j e)).

(** [for (unsigned i = 0; i < n; i++) body], as a transformer of the
    variables the body assigns. *)
Definition for_loop {St : Type} (n : nat) (body : nat -> St -> St) (s : St)
  : St :=
  fold_left (fun st i => body i st) (seq 0 n) s.

(** ** The header *)

Section Header.
Context {T : Type} {ST : Scalar T}.
Local Open Scope scalar_scope.

(** *** Quaternion operators *)

Definition quat_add (lhs rhs : HmdQuaternion_t T) : HmdQuaternion_t T :=
  Quat (w lhs + w rhs) (x lhs + x rhs) (y lhs + y rhs) (z lhs + z rhs).

Definition quat_sub (lhs rhs : HmdQuaternion_t T) : HmdQuaternion_t T :=
  Quat (w lhs - w rhs) (x lhs - x rhs) (y lhs - y rhs) (z lhs - z rhs).

(** [operator*(const HmdQuaternion_t&, const HmdQuaternion_t&)] *)
Definition quat_mul (lhs rhs : HmdQuaternion_t T) : HmdQuaternion_t T :=
  Quat
    ((w lhs * w rhs) - (x lhs * x rhs) - (y lhs * y rhs) - (z lhs * z rhs))
    ((w lhs * x rhs) + (x lhs * w rhs) + (y lhs * z rhs) - (z lhs * y rhs))
    ((w lhs * y rhs) + (y lhs * w rhs) + (z lhs * x rhs) - (x lhs * z rhs))
    ((w lhs * z rhs) + (z lhs * w rhs) + (x lhs * y rhs) - (y lhs * x rhs)).

(** *** Vector operators *)

Definition vec_add (lhs rhs : HmdVector3d_t T) : HmdVector3d_t T :=
  Vec3d (Arr3 (get3 (v3d lhs) 0 + get3 (v3d rhs) 0)
              (get3 (v3d lhs) 1 + get3 (v3d rhs) 1)
              (get3 (v3d lhs) 2 + get3 (v3d rhs) 2)).

Definition vec_add_arr (lhs : HmdVector3d_t T) (rhs : array3 T)
  : HmdVector3d_t T :=
  Vec3d (Arr3 (get3 (v3d lhs) 0 + get3 rhs 0)
              (get3 (v3d lhs) 1 + get3 rhs 1)
              (get3 (v3d lhs) 2 + get3 rhs 2)).

Definition vec_sub (lhs rhs : HmdVector3d_t T) : HmdVector3d_t T :=
  Vec3d (Arr3 (get3 (v3d lhs) 0 - get3 (v3d rhs) 0)
              (get3 (v3d lhs) 1 - get3 (v3d rhs) 1)
              (get3 (v3d lhs) 2 - get3 (v3d rhs) 2)).

Definition vec_sub_arr (lhs : HmdVector3d_t T) (rhs : array3 T)
  : HmdVector3d_t T :=
  Vec3d (Arr3 (get3 (v3d lhs) 0 - get3 rhs 0)
              (get3 (v3d lhs) 1 - get3 rhs 1)
              (get3 (v3d lhs) 2 - get3 rhs 2)).

Definition vec_scale (lhs : HmdVector3d_t T) (rhs : T) : HmdVector3d_t T :=
  Vec3d (Arr3 (get3 (v3d lhs) 0 * rhs)
              (get3 (v3d lhs) 1 * rhs)
              (get3 (v3d lhs) 2 * rhs)).

Definition vec_div (lhs : HmdVector3d_t T) (rhs : T) : HmdVector3d_t T :=
  Vec3d (Arr3 (get3 (v3d lhs) 0 / rhs)
              (get3 (v3d lhs) 1 / rhs)
              (get3 (v3d lhs) 2 / rhs)).

(** *** namespace vrmath *)

Definition signum (v : T) : Z :=
  if v >? s_zero then 1%Z else if v <? s_zero then (-1)%Z else 0%Z.

Section WithLibm.
Context {LT : Libm T}.

Definition quaternionFromRotationAxis (rot ux uy uz : T)
  : HmdQuaternion_t T :=
  let ha := rot / s_two in
  Quat (m_cos ha) (ux * m_sin ha) (uy * m_sin ha) (uz * m_sin ha).

Definition quaternionFromRotationX (rot : T) : HmdQuaternion_t T :=
  let ha := rot / s_two in
  Quat (m_cos ha) (m_sin ha) s_zero s_zero.

Definition quaternionFromRotationY (rot : T) : HmdQuaternion_t T :=
  let ha := rot / s_two in
  Quat (m_cos ha) s_zero (m_sin ha) s_zero.

Definition quaternionFromRotationZ (rot : T) : HmdQuaternion_t T :=
  let ha := rot / s_two in
  Quat (m_cos ha) s_zero s_zero (m_sin ha).

Definition quaternionFromYawPitchRoll (yaw pitch roll : T)
  : HmdQuaternion_t T :=
  quat_mul
    (quat_mul (quaternionFromRotationY yaw)
              (quaternionFromRotationX pitch))
    (quaternionFromRotationZ roll).
End WithLibm.

Definition quaternionConjugate (quat : HmdQuaternion_t T)
  : HmdQuaternion_t T :=
  Quat (w quat) (- x quat) (- y quat) (- z quat).

(** [quaternionRotateVector(quat, const HmdVector3d_t& vector, reverse)] *)
Definition quaternionRotateVector (quat : HmdQuaternion_t T)
           (vector : HmdVector3d_t T) (reverse : bool) : HmdVector3d_t T :=
  if reverse then
    let pin := Quat s_zero (get3 (v3d vector) 0) (get3 (v3d vector) 1)
                    (get3 (v3d vector) 2) in
    let pout := quat_mul (quat_mul (quaternionConjugate quat) pin) quat in
    Vec3d (Arr3 (x pout) (y pout) (z pout))
  else
    let pin := Quat s_zero (get3 (v3d vector) 0) (get3 (v3d vector) 1)
                    (get3 (v3d vector) 2) in
    let pout := quat_mul (quat_mul quat pin) (quaternionConjugate quat) in
    Vec3d (Arr3 (x pout) (y pout) (z pout)).

(** [quaternionRotateVector(quat, quatInv, const HmdVector3d_t& vector,
    reverse)] *)
Definition quaternionRotateVector_inv (quat quatInv : HmdQuaternion_t T)
           (vector : HmdVector3d_t T) (reverse : bool) : HmdVector3d_t T :=
  if reverse then
    let pin := Quat s_zero (get3 (v3d vector) 0) (get3 (v3d vector) 1)
                    (get3 (v3d vector) 2) in
    let pout := quat_mul (quat_mul quatInv pin) quat in
    Vec3d (Arr3 (x pout) (y pout) (z pout))
  else
    let pin := Quat s_zero (get3 (v3d vector) 0) (get3 (v3d vector) 1)
                    (get3 (v3d vector) 2) in
    let pout := quat_mul (quat_mul quat pin) quatInv in
    Vec3d (Arr3 (x pout) (y pout) (z pout)).

(** [quaternionRotateVector(quat, const double (&vector)[3], reverse)] *)
Definition quaternionRotateVector_arr (quat : HmdQuaternion_t T)
           (vector : array3 T) (reverse : bool) : HmdVector3d_t T :=
  if reverse then
    let pin := Quat s_zero (get3 vector 0) (get3 vector 1) (get3 vector 2) in
    let pout := quat_mul (quat_mul (quaternionConjugate quat) pin) quat in
    Vec3d (Arr3 (x pout) (y pout) (z pout))
  else
    let pin := Quat s_zero (get3 vector 0) (get3 vector 1) (get3 vector 2) in
    let pout := quat_mul (quat_mul quat pin) (quaternionConjugate quat) in
    Vec3d (Arr3 (x pout) (y pout) (z pout)).

(** [quaternionRotateVector(quat, quatInv, const double (&vector)[3],
    reverse)] *)
Definition quaternionRotateVector_inv_arr (quat quatInv : HmdQuaternion_t T)
           (vector : array3 T) (reverse : bool) : HmdVector3d_t T :=
  if reverse then
    let pin := Quat s_zero (get3 vector 0) (get3 vector 1) (get3 vector 2) in
    let pout := quat_mul (quat_mul quatInv pin) quat in
    Vec3d (Arr3 (x pout) (y pout) (z pout))
  else
    let pin := Quat s_zero (get3 vector 0) (get3 vector 1) (get3 vector 2) in
    let pout := quat_mul (quat_mul quat pin) quatInv in
    Vec3d (Arr3 (x pout) (y pout) (z pout)).

(** *** Matrices

    A function that declares [HmdMatrix34_t result;] and then assigns some
    of its entries takes the indeterminate initial content of [result] as
    its first argument. *)

(** [matMul33(const HmdMatrix34_t& a, const HmdMatrix34_t& b)] *)
Definition matMul33 (result a b : HmdMatrix34_t T) : HmdMatrix34_t T :=
  for_loop 3 (fun i result =>
    for_loop 3 (fun j result =>
      let result := set34 result i j s_zero in
      for_loop 3 (fun k result =>
        set34 result i j (get34 result i j + get34 a i k * get34 b k j))
        result)
      result)
    result.

(** [matMul33(const HmdMatrix34_t& a, const HmdVector3_t& b)]; the
    overload on [HmdVector3d_t] has the same body. *)
Definition matMul33_mv (result : HmdVector3_t T) (a : HmdMatrix34_t T)
           (b : HmdVector3_t T) : HmdVector3_t T :=
  for_loop 3 (fun i result =>
    let result := Vec3 (set3 (v3 result) i s_zero) in
    for_loop 3 (fun k result =>
      Vec3 (set3 (v3 result) i
                 (get3 (v3 result) i + get34 a i k * get3 (v3 b) k)))
      result)
    result.

(** [matMul33(const HmdVector3_t& a, const HmdMatrix34_t& b)]; the
    overload on [HmdVector3d_t] has the same body. *)
Definition matMul33_vm (result : HmdVector3_t T) (a : HmdVector3_t T)
           (b : HmdMatrix34_t T) : HmdVector3_t T :=
  for_loop 3 (fun i result =>
    let result := Vec3 (set3 (v3 result) i s_zero) in
    for_loop 3 (fun k result =>
      Vec3 (set3 (v3 result) i
                 (get3 (v3 result) i + get3 (v3 a) k * get34 b k i)))
      result)
    result.

(** [transposeMul33(const HmdMatrix34_t& a)] *)
Definition transposeMul33 (result a : HmdMatrix34_t T) : HmdMatrix34_t T :=
  let result :=
    for_loop 3 (fun i result =>
      for_loop 3 (fun k result => set34 result i k (get34 a k i)) result)
      result in
  let result := set34 result 0 3 (get34 a 0 3) in
  let result := set34 result 1 3 (get34 a 1 3) in
  let result := set34 result 2 3 (get34 a 2 3) in
  result.

(** [matMul44(const HmdVector4_t& a, const HmdMatrix44_t& b)]; [result]
    is initialised to [{{0, 0, 0, 0}}]. *)
Definition matMul44 (a : HmdVector4_t T) (b : HmdMatrix44_t T)
  : HmdVector4_t T :=
  let result := Vec4 (Arr4 s_zero s_zero s_zero s_zero) in
  for_loop 4 (fun i result =>
    for_loop 4 (fun k result =>
      Vec4 (set4 (v4 result) i
                 (get4 (v4 result) i + get4 (v4 a) k * get44 b i k)))
      result)
    result.

(** *** Projection *)

(** [makeProjection(fLeft, fRight, fTop, fBottom, zNear, zFar, pmProj)]:
    all sixteen entries of the out-parameter are assigned, in this
    order. *)
Definition makeProjection (fLeft fRight fTop fBottom zNear zFar : T)
           (pmProj : HmdMatrix44_t T) : HmdMatrix44_t T :=
  let idx := s_one / (fRight - fLeft) in
  let idy := s_one / (fBottom - fTop) in
  let idz := s_one / (zNear - zFar) in
  let sx := fRight + fLeft in
  let sy := fBottom + fTop in
  let p := pmProj in
  let p := set44 p 0 0 (s_two * idx) in
  let p := set44 p 0 1 s_zero in
  let p := set44 p 0 2 (sx * idx) in
  let p := set44 p 0 3 s_zero in
  let p := set44 p 1 0 s_zero in
  let p := set44 p 1 1 (s_two * idy) in
  let p := set44 p 1 2 (sy * idy) in
  let p := set44 p 1 3 s_zero in
  let p := set44 p 2 0 s_zero in
  let p := set44 p 2 1 s_zero in
  let p := set44 p 2 2 ((zFar + zNear) * idz) in
  let p := set44 p 2 3 (s_two * zFar * zNear * idz) in
  let p := set44 p 3 0 s_zero in
  let p := set44 p 3 1 s_zero in
  let p := set44 p 3 2 (- s_one) in
  let p := set44 p 3 3 s_zero in
  p.

(** [project(const HmdMatrix44_t& proj_mat, const HmdVector4_t& p)] *)
Definition project (proj_mat : HmdMatrix44_t T) (p : HmdVector4_t T)
  : HmdVector3_t T :=
  let ndcP := matMul44 p proj_mat in
  let pd := s_one / get4 (v4 ndcP) 3 in
  Vec3 (Arr3 (get4 (v4 ndcP) 0 * pd)
             (get4 (v4 ndcP) 1 * pd)
             (get4 (v4 ndcP) 2 * pd)).
End Header.

(** *** The overload of [makeProjection] on a rectangle *)

(** [T a[2]], [struct HmdVector2_t { float v[2]; }] and
    [struct HmdRect2_t { HmdVector2_t vTopLeft; HmdVector2_t vBottomRight; }] *)
Record array2 (T : Type) : Type := Arr2 { a2_0 : T; a2_1 : T }.

Definition get2 {T} (a : array2 T) (i : nat) : T :=
  match i with
  | 0 => a2_0 a
  | _ => a2_1 a
  end.

Record HmdVector2_t (T : Type) : Type := Vec2 { v2 : array2 T }.

Record HmdRect2_t (T : Type) : Type :=
  Rect2 { vTopLeft : HmdVector2_t T; vBottomRight : HmdVector2_t T }.

(** [makeProjection(const HmdRect2_t& eye, zNear, zFar, pmProj)] *)
Definition makeProjection_rect {T} {ST : Scalar T} (eye : HmdRect2_t T)
           (zNear zFar : T) (pmProj : HmdMatrix44_t T) : HmdMatrix44_t T :=
  makeProjection
    (get2 (v2 (vTopLeft eye)) 0) (get2 (v2 (vBottomRight eye)) 0)
    (get2 (v2 (vTopLeft eye)) 1) (get2 (v2 (vBottomRight eye)) 1)
    zNear zFar pmProj.

(** *** Rotation matrix to quaternion

    [quaternionFromRotationMatrix] reads a matrix of [float] and computes a
    quaternion of [double]: [F] is the arithmetic of [float], [D] that of
    [double], and a [float] operand of a [double] operation is promoted. *)

Section FromRotationMatrix.
Context {F D : Type} {SF : Scalar F} {SD : Scalar D} {LD : Libm D}
        {PFD : Promote F D}.
Local Open Scope scalar_scope.

(** The four assignments to [q] of each branch, on [a = mat.m]. *)
Definition extract_trace (a : HmdMatrix34_t F) (trace : D)
  : HmdQuaternion_t D :=
  let s := s_half / m_sqrt (trace + s_one) in
  Quat (s_quarter / s)
       (promote (get34 a 1 2 - get34 a 2 1) * s)
       (promote (get34 a 2 0 - get34 a 0 2) * s)
       (promote (get34 a 0 1 - get34 a 1 0) * s).

Definition extract_m00 (a : HmdMatrix34_t F) : HmdQuaternion_t D :=
  let s := s_two * m_sqrt (s_one + promote (get34 a 0 0)
                           - promote (get34 a 1 1)
                           - promote (get34 a 2 2)) in
  Quat (promote (get34 a 1 2 - get34 a 2 1) / s)
       (s_quarter * s)
       (promote (get34 a 1 0 + get34 a 0 1) / s)
       (promote (get34 a 2 0 + get34 a 0 2) / s).

Definition extract_m11 (a : HmdMatrix34_t F) : HmdQuaternion_t D :=
  let s := s_two * m_sqrt (s_one + promote (get34 a 1 1)
                           - promote (get34 a 0 0)
                           - promote (get34 a 2 2)) in
  Quat (promote (get34 a 2 0 - get34 a 0 2) / s)
       (promote (get34 a 1 0 + get34 a 0 1) / s)
       (s_quarter * s)
       (promote (get34 a 2 1 + get34 a 1 2) / s).

Definition extract_m22 (a : HmdMatrix34_t F) : HmdQuaternion_t D :=
  let s := s_two * m_sqrt (s_one + promote (get34 a 2 2)
                           - promote (get34 a 0 0)
                           - promote (get34 a 1 1)) in
  Quat (promote (get34 a 0 1 - get34 a 1 0) / s)
       (promote (get34 a 2 0 + get34 a 0 2) / s)
       (promote (get34 a 2 1 + get34 a 1 2) / s)
       (s_quarter * s).

(** [quaternionFromRotationMatrix(const HmdMatrix34_t& mat)] *)
Definition quaternionFromRotationMatrix (mat : HmdMatrix34_t F)
  : HmdQuaternion_t D :=
  let a := mat in
  let trace := promote (get34 a 0 0 + get34 a 1 1 + get34 a 2 2) in
  let q :=
    if trace >? s_zero then extract_trace a trace
    else if (get34 a 0 0 >? get34 a 1 1) && (get34 a 0 0 >? get34 a 2 2)
         then extract_m00 a
    else if get34 a 1 1 >? get34 a 2 2 then extract_m11 a
    else extract_m22 a in
  let q := Quat (w q) (- x q) (y q) (z q) in
  let q := Quat (w q) (x q) (- y q) (z q) in
  let q := Quat (w q) (x q) (y q) (- z q) in
  q.

(** The four branches by name, and the quaternion each one assigns to [q]
    before the three sign changes; used to state which branch ran. *)
Inductive branch : Type := BTrace | BDiag (i : nat).

Definition extract (b : branch) (mat : HmdMatrix34_t F)
  : HmdQuaternion_t D :=
  match b with
  | BTrace =>
      extract_trace mat
        (promote (get34 mat 0 0 + get34 mat 1 1 + get34 mat 2 2))
  | BDiag 0 => extract_m00 mat
  | BDiag 1 => extract_m11 mat
  | BDiag _ => extract_m22 mat
  end.
End FromRotationMatrix.

(** ** Exact arithmetic: the real numbers *)

Definition Rgtb (a b : R) : bool := if Rgt_dec a b then true else false.
Definition Rltb' (a b : R) : bool := if Rlt_dec a b then true else false.

#[export] Instance R_Scalar : Scalar R := {|
  s_zero := 0%R;
  s_one := 1%R;
  s_two := 2%R;
  s_half := (1 / 2)%R;
  s_quarter := (1 / 4)%R;
  s_add := Rplus;
  s_sub := Rminus;
  s_mul := Rmult;
  s_div := Rdiv;
  s_neg := Ropp;
  s_gt := Rgtb;
  s_lt := Rltb'
|}.

#[export] Instance R_Libm : Libm R := {|
  m_sqrt := sqrt;
  m_cos := cos;
  m_sin := sin
|}.

#[export] Instance R_Promote : Promote R R := {| promote := fun r => r |}.

(** ** IEEE 754 arithmetic *)

(** The arithmetic of a binary format with [prec] bits of mantissa and
    infinities at exponent [emax], rounding to nearest even.  [a > b] is
    [b < a], false when an operand is NaN. *)
Definition float_Scalar (prec emax : Z) : Scalar spec_float :=
  let one := SFone prec emax in
  let two := SFadd prec emax one one in
  let half := SFdiv prec emax one two in
  {|
    s_zero := S754_zero false;
    s_one := one;
    s_two := two;
    s_half := half;
    s_quarter := SFmul prec emax half half;
    s_add := SFadd prec emax;
    s_sub := SFsub prec emax;
    s_mul := SFmul prec emax;
    s_div := SFdiv prec emax;
    s_neg := SFopp;
    s_gt := fun a b => SFltb b a;
    s_lt := SFltb
  |}.

(** [float] and [double]. *)
Definition binary32 : Scalar spec_float := float_Scalar 24 128.
Definition binary64 : Scalar spec_float := float_Scalar 53 1024.

(** [sqrt] is correctly rounded; [cos] and [sin] are those of the C
    library in use. *)
Definition float_Libm (prec emax : Z) (fcos fsin : spec_float -> spec_float)
  : Libm spec_float :=
  {| m_sqrt := SFsqrt prec emax; m_cos := fcos; m_sin := fsin |}.

(** A [float] converted to [double] keeps its value. *)
Definition float_to_double (f : spec_float) : spec_float :=
  match f with
  | S754_finite s m e => binary_round 53 1024 s m e
  | _ => f
  end.

Definition binary32_64_Promote : Promote spec_float spec_float :=
  {| promote := float_to_double |}.

(** A float that is an infinity or a NaN. *)
Definition is_inf_or_nan (f : spec_float) : bool :=
  match f with
  | S754_infinity _ | S754_nan => true
  | _ => false
  end.

(** A float that is a zero of either sign or a NaN. *)
Definition zero_or_nan (f : spec_float) : bool :=
  match f with
  | S754_zero _ | S754_nan => true
  | _ => false
  end.

(** ** Notions of the specification *)

(** The sum over [k] in [0 .. n-1] of [f k], accumulated from zero in
    increasing [k]. *)
Definition sigma {T} {ST : Scalar T} (n : nat) (f : nat -> T) : T :=
  fold_left (fun acc k => s_add acc (f k)) (seq 0 n) s_zero.

(** The squared norm of a quaternion. *)
Definition norm2 (q : HmdQuaternion_t R) : R :=
  (w q * w q + x q * x q + y q * y q + z q * z q)%R.

(** The vector of a rotation result, embedded as a pure quaternion. *)
Definition pure_quat {T} {ST : Scalar T} (r : HmdVector3d_t T)
  : HmdQuaternion_t T :=
  Quat s_zero (get3 (v3d r) 0) (get3 (v3d r) 1) (get3 (v3d r) 2).

(** A 3x4 matrix whose leading 3x3 block is the identity; its translation
    column is free. *)
Definition identity_block (I : HmdMatrix34_t R) : Prop :=
  forall i j : nat, i < 3 -> j < 3 ->
    get34 I i j = if Nat.eqb i j then 1%R else 0%R.



(** [matMul44] with the other index convention: the dot product of [a]
    with column [i] of [b]. *)
Definition column_dot {T} {ST : Scalar T} (a : HmdVector4_t T)
           (b : HmdMatrix44_t T) (i : nat) : T :=
  sigma 4 (fun k => s_mul (get4 (v4 a) k) (get44 b k i)).

(** The squared length of a vector, and the quaternion [- q]. *)
Definition vec_norm2 (v : HmdVector3d_t R) : R :=
  (get3 (v3d v) 0 * get3 (v3d v) 0 + get3 (v3d v) 1 * get3 (v3d v) 1
   + get3 (v3d v) 2 * get3 (v3d v) 2)%R.

Definition quat_opp (q : HmdQuaternion_t R) : HmdQuaternion_t R :=
  Quat (- w q)%R (- x q)%R (- y q)%R (- z q)%R.

(** A homogeneous point with its four coordinates multiplied by [s]. *)
Definition vec4_scale (s : R) (p : HmdVector4_t R) : HmdVector4_t R :=
  Vec4 (Arr4 (s * get4 (v4 p) 0)%R (s * get4 (v4 p) 1)%R
             (s * get4 (v4 p) 2)%R (s * get4 (v4 p) 3)%R).

(** The sign of a float: [-1] or [1] by the sign bit, [0] for the zeros
    and NaN. *)
Definition float_sign (f : spec_float) : Z :=
  match f with
  | S754_zero _ | S754_nan => 0%Z
  | S754_infinity s | S754_finite s _ _ => if s then (-1)%Z else 1%Z
  end.

(** The matrix of the rotation by [q]: column [j] is the image of the
    [j]-th basis vector by [quaternionRotateVector q], the translation
    column is zero. *)
Definition rotation_matrix (q : HmdQuaternion_t R) : HmdMatrix34_t R :=
  let c0 := v3d (quaternionRotateVector q (Vec3d (Arr3 1 0 0)%R) false) in
  let c1 := v3d (quaternionRotateVector q (Vec3d (Arr3 0 1 0)%R) false) in
  let c2 := v3d (quaternionRotateVector q (Vec3d (Arr3 0 0 1)%R) false) in
  Mat34 (Arr3 (Arr4 (get3 c0 0) (get3 c1 0) (get3 c2 0) 0%R)
              (Arr4 (get3 c0 1) (get3 c1 1) (get3 c2 1) 0%R)
              (Arr4 (get3 c0 2) (get3 c1 2) (get3 c2 2) 0%R)).

(** *** The header on [float] and [double]

    [quaternionFromRotationMatrix] as compiled: the matrix in binary32,
    the quaternion in binary64.  [cos] and [sin] are not called. *)
Definition quaternionFromRotationMatrix_float
           (fcos fsin : spec_float -> spec_float)
           (mat : HmdMatrix34_t spec_float) : HmdQuaternion_t spec_float :=
  @quaternionFromRotationMatrix _ _ binary32 binary64
    (float_Libm 53 1024 fcos fsin) binary32_64_Promote mat.

Definition extract_float (fcos fsin : spec_float -> spec_float) (b : branch)
           (mat : HmdMatrix34_t spec_float) : HmdQuaternion_t spec_float :=
  @extract _ _ binary32 binary64 (float_Libm 53 1024 fcos fsin)
    binary32_64_Promote b mat.

(** The trace as the code computes it: the [float] sum
    [(m[0][0] + m[1][1]) + m[2][2]], converted to [double]. *)
Definition float_trace (M : HmdMatrix34_t spec_float) : spec_float :=
  float_to_double
    (SFadd 24 128 (SFadd 24 128 (get34 M 0 0) (get34 M 1 1)) (get34 M 2 2)).








(** A binary32 float that is a zero or a finite number of the format. *)
Definition finite_binary32 (f : spec_float) : bool :=
  match f with
  | S754_zero _ => true
  | S754_finite _ m e => bounded 24 128 m e
  | _ => false
  end.

(** The same float, a negative zero replaced by the positive zero. *)
Definition drop_zero_sign (f : spec_float) : spec_float :=
  match f with
  | S754_zero _ => S754_zero false
  | _ => f
  end.

(** A binary32 matrix whose leading 3x3 block is the identity: [1.0f] on
    the diagonal, [+0.0f] elsewhere. *)
Definition float_identity_block (I : HmdMatrix34_t spec_float) : Prop :=
  forall i j : nat, i < 3 -> j < 3 ->
    get34 I i j =
    if Nat.eqb i j then @s_one _ binary32 else S754_zero false.

(** The sign changes after the branch, on [double]. *)
Definition negate_xyz_float (q : HmdQuaternion_t spec_float)
  : HmdQuaternion_t spec_float :=
  Quat (w q) (SFopp (x q)) (SFopp (y q)) (SFopp (z q)).


(** * Properties *)

(** ** Quaternions, over any scalar arithmetic *)

Section QuaternionGeneric.
Context {T : Type} {ST : Scalar T}.
Local Open Scope scalar_scope.

Lemma quat_eta (q : HmdQuaternion_t T) : q = Quat (w q) (x q) (y q) (z q).
Proof. destruct q; reflexivity. Qed.

Lemma quat_mul_components (w1 x1 y1 z1 w2 x2 y2 z2 : T) :
  quat_mul (Quat w1 x1 y1 z1) (Quat w2 x2 y2 z2) =
  Quat (w1 * w2 - x1 * x2 - y1 * y2 - z1 * z2)
       (w1 * x2 + x1 * w2 + y1 * z2 - z1 * y2)
       (w1 * y2 + y1 * w2 + z1 * x2 - x1 * z2)
       (w1 * z2 + z1 * w2 + x1 * y2 - y1 * x2).
Proof. reflexivity. Qed.

Lemma rotate_inv_conjugate (q : HmdQuaternion_t T) (vector : HmdVector3d_t T)
      (reverse : bool) :
  quaternionRotateVector_inv q (quaternionConjugate q) vector reverse =
  quaternionRotateVector q vector reverse.
Proof. destruct reverse; reflexivity. Qed.

Lemma rotate_arr_struct (q : HmdQuaternion_t T) (vector : array3 T)
      (reverse : bool) :
  quaternionRotateVector_arr q vector reverse =
  quaternionRotateVector q (Vec3d vector) reverse.
Proof. destruct reverse; reflexivity. Qed.

Lemma rotate_inv_arr_struct (q quatInv : HmdQuaternion_t T)
      (vector : array3 T) (reverse : bool) :
  quaternionRotateVector_inv_arr q quatInv vector reverse =
  quaternionRotateVector_inv q quatInv (Vec3d vector) reverse.
Proof. destruct reverse; reflexivity. Qed.
End QuaternionGeneric.

(** ** Quaternions, over the real numbers *)

Section QuaternionReal.
Local Open Scope R_scope.

(** Two quaternions of reals are equal when their components are. *)
Lemma quat_ext (p q : HmdQuaternion_t R) :
  w p = w q -> x p = x q -> y p = y q -> z p = z q -> p = q.
Proof.
  destruct p, q; cbn; intros; subst; reflexivity.
Qed.

Lemma vec3d_ext (u v : HmdVector3d_t R) :
  get3 (v3d u) 0 = get3 (v3d v) 0 ->
  get3 (v3d u) 1 = get3 (v3d v) 1 ->
  get3 (v3d u) 2 = get3 (v3d v) 2 -> u = v.
Proof.
  destruct u as [[u0 u1 u2]], v as [[v0 v1 v2]]; cbn; intros; subst;
    reflexivity.
Qed.

(** The units [i] and [j] do not commute: [i * j = k], [j * i = - k]. *)
Lemma quat_mul_i_j :
  quat_mul (Quat 0 1 0 0) (Quat 0 0 1 0) = Quat 0 0 0 1 /\
  quat_mul (Quat 0 0 1 0) (Quat 0 1 0 0) = Quat 0 0 0 (-1).
Proof.
  split; apply quat_ext; cbn; ring.
Qed.

(** The product is associative over the reals. *)
Lemma quat_mul_assoc (p q r : HmdQuaternion_t R) :
  quat_mul (quat_mul p q) r = quat_mul p (quat_mul q r).
Proof.
  destruct p, q, r; apply quat_ext; cbn; ring.
Qed.

(** [conj q * q] and [q * conj q] are the real number [norm2 q]. *)
Lemma quat_mul_conjugate_l (q : HmdQuaternion_t R) :
  quat_mul (quaternionConjugate q) q = Quat (norm2 q) 0 0 0.
Proof.
  destruct q; apply quat_ext; unfold norm2; cbn; ring.
Qed.

Lemma quat_mul_conjugate_r (q : HmdQuaternion_t R) :
  quat_mul q (quaternionConjugate q) = Quat (norm2 q) 0 0 0.
Proof.
  destruct q; apply quat_ext; unfold norm2; cbn; ring.
Qed.

(** Forward then reverse rotation scales by the square of [norm2 q]. *)
Lemma rotate_forward_reverse (q : HmdQuaternion_t R) (v : HmdVector3d_t R) :
  quaternionRotateVector q (quaternionRotateVector q v false) true =
  vec_scale v (norm2 q * norm2 q).
Proof.
  destruct q as [qw qx qy qz], v as [[v0 v1 v2]].
  apply vec3d_ext; unfold norm2; cbn; ring.
Qed.

(** The scalar part of either sandwich product vanishes. *)
Lemma sandwich_scalar_part (q : HmdQuaternion_t R) (v0 v1 v2 : R) :
  w (quat_mul (quat_mul q (Quat 0 v0 v1 v2)) (quaternionConjugate q)) = 0 /\
  w (quat_mul (quat_mul (quaternionConjugate q) (Quat 0 v0 v1 v2)) q) = 0.
Proof.
  destruct q as [qw qx qy qz]; split; cbn; ring.
Qed.
End QuaternionReal.

(** ** Yaw, pitch and roll *)

Section YawPitchRoll.
Local Open Scope R_scope.

Lemma half_zero : 0 / 2 = 0.
Proof. field. Qed.

Lemma rotationX_zero : quaternionFromRotationX 0 = Quat 1 0 0 0.
Proof.
  unfold quaternionFromRotationX; cbn.
  rewrite half_zero, cos_0, sin_0; reflexivity.
Qed.

Lemma rotationY_zero : quaternionFromRotationY 0 = Quat 1 0 0 0.
Proof.
  unfold quaternionFromRotationY; cbn.
  rewrite half_zero, cos_0, sin_0; reflexivity.
Qed.

Lemma rotationZ_zero : quaternionFromRotationZ 0 = Quat 1 0 0 0.
Proof.
  unfold quaternionFromRotationZ; cbn.
  rewrite half_zero, cos_0, sin_0; reflexivity.
Qed.

Lemma rotationX_PI : quaternionFromRotationX PI = Quat 0 1 0 0.
Proof.
  unfold quaternionFromRotationX; cbn.
  rewrite cos_PI2, sin_PI2; reflexivity.
Qed.

Lemma rotationY_PI : quaternionFromRotationY PI = Quat 0 0 1 0.
Proof.
  unfold quaternionFromRotationY; cbn.
  rewrite cos_PI2, sin_PI2; reflexivity.
Qed.

(** The order of the factors is observable: with the first two factors
    exchanged the result differs at yaw = pitch = pi, roll = 0. *)
Lemma yaw_pitch_order_matters :
  exists yaw pitch roll : R,
    quaternionFromYawPitchRoll yaw pitch roll <>
    quat_mul (quat_mul (quaternionFromRotationX pitch)
                       (quaternionFromRotationY yaw))
             (quaternionFromRotationZ roll).
Proof.
  exists PI, PI, 0. unfold quaternionFromYawPitchRoll.
  rewrite rotationX_PI, rotationY_PI, rotationZ_zero.
  intro H. apply (f_equal (@z R)) in H. cbn in H. lra.
Qed.
End YawPitchRoll.

(** ** Main results on quaternions *)

(** C1: for all quaternions [(w1,x1,y1,z1)] and [(w2,x2,y2,z2)] the product
    [operator*] is the quaternion with [w = w1*w2 - x1*x2 - y1*y2 - z1*z2],
    [x = w1*x2 + x1*w2 + y1*z2 - z1*y2], [y = w1*y2 + y1*w2 + z1*x2 - x1*z2]
    and [z = w1*z2 + z1*w2 + x1*y2 - y1*x2], in every scalar arithmetic; and
    the product is not commutative: over the reals there are [q1], [q2] with
    [q1 * q2 <> q2 * q1]. *)
Theorem C1_hamilton_product :
  (forall (T : Type) (ST : Scalar T) (w1 x1 y1 z1 w2 x2 y2 z2 : T),
      quat_mul (Quat w1 x1 y1 z1) (Quat w2 x2 y2 z2) =
      Quat (w1 * w2 - x1 * x2 - y1 * y2 - z1 * z2)%S
           (w1 * x2 + x1 * w2 + y1 * z2 - z1 * y2)%S
           (w1 * y2 + y1 * w2 + z1 * x2 - x1 * z2)%S
           (w1 * z2 + z1 * w2 + x1 * y2 - y1 * x2)%S) /\
  (exists q1 q2 : HmdQuaternion_t R, quat_mul q1 q2 <> quat_mul q2 q1).
Proof.
  split.
  - intros T ST w1 x1 y1 z1 w2 x2 y2 z2. apply quat_mul_components.
  - exists (Quat 0 1 0 0)%R, (Quat 0 0 1 0)%R.
    destruct quat_mul_i_j as [-> ->].
    intro H. apply (f_equal (@z R)) in H. cbn in H. lra.
Qed.

(** C3: for all yaw, pitch and roll, [quaternionFromYawPitchRoll] is the
    product [quaternionFromRotationY yaw * quaternionFromRotationX pitch *
    quaternionFromRotationZ roll], the factors in this order, in every
    scalar arithmetic; and over the reals
    [quaternionFromYawPitchRoll 0 0 0] is the identity [(1, 0, 0, 0)]. *)
Theorem C3_yaw_pitch_roll :
  (forall (T : Type) (ST : Scalar T) (LT : Libm T) (yaw pitch roll : T),
      quaternionFromYawPitchRoll yaw pitch roll =
      quat_mul (quat_mul (quaternionFromRotationY yaw)
                         (quaternionFromRotationX pitch))
               (quaternionFromRotationZ roll)) /\
  quaternionFromYawPitchRoll 0%R 0%R 0%R = Quat 1%R 0%R 0%R 0%R.
Proof.
  split.
  - reflexivity.
  - unfold quaternionFromYawPitchRoll.
    rewrite rotationX_zero, rotationY_zero, rotationZ_zero.
    apply quat_ext; cbn; ring.
Qed.

(** C4: over the reals, for every vector [v] and every quaternion [q] with
    [w^2 + x^2 + y^2 + z^2 = 1], rotating [v] by [q] and then rotating the
    result by [q] with [reverse = true] gives [v] back. *)
Theorem C4_rotate_round_trip (q : HmdQuaternion_t R) (v : HmdVector3d_t R) :
  (w q * w q + x q * x q + y q * y q + z q * z q = 1)%R ->
  quaternionRotateVector q (quaternionRotateVector q v false) true = v.
Proof.
  intro Hunit. rewrite rotate_forward_reverse.
  fold (norm2 q) in Hunit. rewrite Hunit.
  destruct v as [[v0 v1 v2]]. apply vec3d_ext; cbn; ring.
Qed.

Lemma C4_rotate_round_trip_witness :
  let q := Quat 0%R 1%R 0%R 0%R in
  let v := Vec3d (Arr3 1%R 2%R 3%R) in
  (w q * w q + x q * x q + y q * y q + z q * z q = 1)%R /\
  quaternionRotateVector q (quaternionRotateVector q v false) true = v.
Proof.
  intros q v.
  assert (Hunit : (w q * w q + x q * x q + y q * y q + z q * z q = 1)%R)
    by (cbn; lra).
  split; [exact Hunit | exact (C4_rotate_round_trip q v Hunit)].
Defined.

(** C9: the four overloads of [quaternionRotateVector] agree: for every
    quaternion, vector and [reverse], the overload given
    [quatInv = quaternionConjugate q] returns what the overload without
    [quatInv] returns, and each overload on a raw array returns what the
    overload on the vector struct with the same components returns. *)
Theorem C9_rotate_overloads :
  forall (T : Type) (ST : Scalar T) (q quatInv : HmdQuaternion_t T)
         (vector : HmdVector3d_t T) (reverse : bool),
    quaternionRotateVector_inv q (quaternionConjugate q) vector reverse =
    quaternionRotateVector q vector reverse /\
    quaternionRotateVector_inv_arr q (quaternionConjugate q) (v3d vector)
                                   reverse =
    quaternionRotateVector_arr q (v3d vector) reverse /\
    quaternionRotateVector_arr q (v3d vector) reverse =
    quaternionRotateVector q vector reverse /\
    quaternionRotateVector_inv_arr q quatInv (v3d vector) reverse =
    quaternionRotateVector_inv q quatInv vector reverse.
Proof.
  intros T ST q quatInv [vector] reverse. cbn [v3d].
  rewrite rotate_inv_arr_struct, rotate_arr_struct, rotate_inv_conjugate.
  rewrite rotate_inv_arr_struct. repeat split; reflexivity.
Qed.

(** C10: over the reals, for every quaternion [q], unit or not, and every
    vector [v], the [w] component of [q * (0, v) * quaternionConjugate q]
    and of [quaternionConjugate q * (0, v) * q] is zero; so the product
    [pout] of [quaternionRotateVector] is the pure quaternion of the vector
    the function returns, and dropping [pout.w] loses nothing. *)
Theorem C10_sandwich_is_pure :
  forall (q : HmdQuaternion_t R) (vector : HmdVector3d_t R),
    let pin := Quat 0%R (get3 (v3d vector) 0) (get3 (v3d vector) 1)
                    (get3 (v3d vector) 2) in
    let forward := quat_mul (quat_mul q pin) (quaternionConjugate q) in
    let backward := quat_mul (quat_mul (quaternionConjugate q) pin) q in
    w forward = 0%R /\
    w backward = 0%R /\
    forward = pure_quat (quaternionRotateVector q vector false) /\
    backward = pure_quat (quaternionRotateVector q vector true).
Proof.
  intros q [[v0 v1 v2]]; cbn [v3d get3 a3_0 a3_1 a3_2].
  destruct (sandwich_scalar_part q v0 v1 v2) as [Hf Hb].
  repeat split; try assumption.
  - apply quat_ext; try reflexivity. rewrite Hf; reflexivity.
  - apply quat_ext; try reflexivity. rewrite Hb; reflexivity.
Qed.

(** ** Matrices, over any scalar arithmetic *)

Section MatrixGeneric.
Context {T : Type} {ST : Scalar T}.
Local Open Scope scalar_scope.

(** An index below 3 is 0, 1 or 2. *)
Lemma lt_3_cases (i : nat) : i < 3 -> i = 0 \/ i = 1 \/ i = 2.
Proof. lia. Qed.

Lemma lt_4_cases (i : nat) : i < 4 -> i = 0 \/ i = 1 \/ i = 2 \/ i = 3.
Proof. lia. Qed.

Lemma matMul33_block (result a b : HmdMatrix34_t T) (i j : nat) :
  i < 3 -> j < 3 ->
  get34 (matMul33 result a b) i j =
  sigma 3 (fun k => get34 a i k * get34 b k j).
Proof.
  intros Hi Hj.
  destruct (lt_3_cases Hi) as [-> | [-> | ->]];
    destruct (lt_3_cases Hj) as [-> | [-> | ->]]; reflexivity.
Qed.

Lemma matMul33_translation (result a b : HmdMatrix34_t T) (i : nat) :
  i < 3 -> get34 (matMul33 result a b) i 3 = get34 result i 3.
Proof.
  intros Hi. destruct (lt_3_cases Hi) as [-> | [-> | ->]]; reflexivity.
Qed.

Lemma transposeMul33_block (result a : HmdMatrix34_t T) (i k : nat) :
  i < 3 -> k < 3 -> get34 (transposeMul33 result a) i k = get34 a k i.
Proof.
  intros Hi Hk.
  destruct (lt_3_cases Hi) as [-> | [-> | ->]];
    destruct (lt_3_cases Hk) as [-> | [-> | ->]]; reflexivity.
Qed.

Lemma transposeMul33_translation (result a : HmdMatrix34_t T) (i : nat) :
  i < 3 -> get34 (transposeMul33 result a) i 3 = get34 a i 3.
Proof.
  intros Hi. destruct (lt_3_cases Hi) as [-> | [-> | ->]]; reflexivity.
Qed.

(** The result of [transposeMul33] does not depend on the initial content
    of its local. *)
Lemma transposeMul33_initial (r1 r2 a : HmdMatrix34_t T) :
  transposeMul33 r1 a = transposeMul33 r2 a.
Proof. reflexivity. Qed.

Lemma transposeMul33_involutive (r1 r2 a : HmdMatrix34_t T) :
  transposeMul33 r2 (transposeMul33 r1 a) = a.
Proof.
  destruct a as [[[a00 a01 a02 a03] [a10 a11 a12 a13] [a20 a21 a22 a23]]].
  reflexivity.
Qed.

Lemma matMul44_entry (a : HmdVector4_t T) (b : HmdMatrix44_t T) (i : nat) :
  i < 4 ->
  get4 (v4 (matMul44 a b)) i =
  sigma 4 (fun k => get4 (v4 a) k * get44 b i k).
Proof.
  intros Hi. destruct (lt_4_cases Hi) as [-> | [-> | [-> | ->]]];
    reflexivity.
Qed.

(** [project] multiplies by the reciprocal of the fourth component. *)
Lemma project_reciprocal (proj_mat : HmdMatrix44_t T) (p : HmdVector4_t T) :
  let ndcP := v4 (matMul44 p proj_mat) in
  project proj_mat p =
  Vec3 (Arr3 (get4 ndcP 0 * (s_one / get4 ndcP 3))
             (get4 ndcP 1 * (s_one / get4 ndcP 3))
             (get4 ndcP 2 * (s_one / get4 ndcP 3))).
Proof. reflexivity. Qed.

(** The sixteen entries [makeProjection] assigns. *)
Lemma makeProjection_entries (fLeft fRight fTop fBottom zNear zFar : T)
      (pmProj : HmdMatrix44_t T) :
  let idx := s_one / (fRight - fLeft) in
  let idy := s_one / (fBottom - fTop) in
  let idz := s_one / (zNear - zFar) in
  makeProjection fLeft fRight fTop fBottom zNear zFar pmProj =
  Mat44 (Arr4
    (Arr4 (s_two * idx) s_zero ((fRight + fLeft) * idx) s_zero)
    (Arr4 s_zero (s_two * idy) ((fBottom + fTop) * idy) s_zero)
    (Arr4 s_zero s_zero ((zFar + zNear) * idz)
          (s_two * zFar * zNear * idz))
    (Arr4 s_zero s_zero (- s_one) s_zero)).
Proof. reflexivity. Qed.
End MatrixGeneric.

(** ** Matrices, over the real numbers *)

Section MatrixReal.
Local Open Scope R_scope.

Lemma sigma3_real (f : nat -> R) : sigma 3 f = f 0%nat + f 1%nat + f 2%nat.
Proof. unfold sigma; cbn. ring. Qed.

Lemma sigma4_real (f : nat -> R) :
  sigma 4 f = f 0%nat + f 1%nat + f 2%nat + f 3%nat.
Proof. unfold sigma; cbn. ring. Qed.

Lemma matMul33_identity_l (result I M : HmdMatrix34_t R) (i j : nat) :
  identity_block I -> (i < 3)%nat -> (j < 3)%nat ->
  get34 (matMul33 result I M) i j = get34 M i j.
Proof.
  intros HI Hi Hj. rewrite matMul33_block, sigma3_real by assumption.
  cbn [s_mul R_Scalar].
  rewrite !HI by (assumption || lia).
  destruct (lt_3_cases Hi) as [-> | [-> | ->]]; cbn [Nat.eqb]; ring.
Qed.
End MatrixReal.

(** ** Rotation matrix to quaternion *)

Section FromRotationMatrixGeneric.
Context {F D : Type} {SF : Scalar F} {SD : Scalar D} {LD : Libm D}
        {PFD : Promote F D}.
Local Open Scope scalar_scope.

(** Whatever the arithmetic, the result is the extracted quaternion of
    one branch with [x], [y] and [z] negated and [w] kept. *)
Lemma quaternionFromRotationMatrix_branches (mat : HmdMatrix34_t F) :
  let trace := promote (get34 mat 0 0 + get34 mat 1 1 + get34 mat 2 2) in
  let b :=
    if trace >? s_zero then BTrace
    else if (get34 mat 0 0 >? get34 mat 1 1)
            && (get34 mat 0 0 >? get34 mat 2 2) then BDiag 0
    else if get34 mat 1 1 >? get34 mat 2 2 then BDiag 1
    else BDiag 2 in
  let e : HmdQuaternion_t D := extract b mat in
  quaternionFromRotationMatrix mat = Quat (w e) (- x e) (- y e) (- z e).
Proof.
  cbv zeta. unfold quaternionFromRotationMatrix.
  destruct (_ >? s_zero); [reflexivity|].
  destruct (_ && _); [reflexivity|].
  destruct (_ >? _); reflexivity.
Qed.
End FromRotationMatrixGeneric.

Section FromRotationMatrixReal.
Local Open Scope R_scope.

Lemma Rgtb_true (a b : R) : Rgtb a b = true <-> a > b.
Proof.
  unfold Rgtb. destruct (Rgt_dec a b); split; intros; try assumption;
    try reflexivity; try discriminate; contradiction.
Qed.

Lemma Rgtb_false (a b : R) : Rgtb a b = false <-> a <= b.
Proof.
  unfold Rgtb. destruct (Rgt_dec a b); split; intros; try discriminate;
    try reflexivity; lra.
Qed.

End FromRotationMatrixReal.


(** ** Main results on matrices and projection *)

(** Over the reals, [project P p] is the 3-vector of the components 0, 1
    and 2 of [matMul44 p P], each divided by component 3 of that product;
    component [i] of [matMul44 a b] is the sum over [k] of
    [a[k] * b[i][k]] in every arithmetic: the dot product of [a] with row
    [i] of [b], which is not in general the dot product with column [i]. *)
Lemma project_quotient_real :
  (forall (P : HmdMatrix44_t R) (p : HmdVector4_t R),
      let ndcP := v4 (matMul44 p P) in
      project P p =
      Vec3 (Arr3 (get4 ndcP 0 / get4 ndcP 3)%R
                 (get4 ndcP 1 / get4 ndcP 3)%R
                 (get4 ndcP 2 / get4 ndcP 3)%R)) /\
  (forall (T : Type) (ST : Scalar T) (a : HmdVector4_t T)
          (b : HmdMatrix44_t T),
      v4 (matMul44 a b) =
      Arr4 (sigma 4 (fun k => get4 (v4 a) k * get44 b 0 k)%S)
           (sigma 4 (fun k => get4 (v4 a) k * get44 b 1 k)%S)
           (sigma 4 (fun k => get4 (v4 a) k * get44 b 2 k)%S)
           (sigma 4 (fun k => get4 (v4 a) k * get44 b 3 k)%S)) /\
  (exists (a : HmdVector4_t R) (b : HmdMatrix44_t R),
      get4 (v4 (matMul44 a b)) 0 <> column_dot a b 0).
Proof.
  split; [|split].
  - intros P p. cbv zeta. rewrite project_reciprocal. cbv zeta.
    cbn [s_mul s_div s_one R_Scalar]. do 2 f_equal; unfold Rdiv; ring.
  - reflexivity.
  - exists (Vec4 (Arr4 0 1 0 0))%R.
    exists (Mat44 (Arr4 (Arr4 0 1 0 0) (Arr4 0 0 0 0) (Arr4 0 0 0 0)
                        (Arr4 0 0 0 0)))%R.
    unfold column_dot. rewrite matMul44_entry, !sigma4_real by lia. cbn. lra.
Qed.

(** C7: for every 3x4 matrix [M], [transposeMul33 M] has [M[k][i]] at
    [[i][k]] for all [i], [k] in [0 .. 2] and the translation column of [M]
    at index 3; hence [transposeMul33 (transposeMul33 M) = M], on all
    twelve entries.  In every scalar arithmetic, and whatever the initial
    content of the local [result]. *)
Theorem C7_transpose_involution :
  forall (T : Type) (ST : Scalar T) (r1 r2 M : HmdMatrix34_t T),
    (forall i k : nat, i < 3 -> k < 3 ->
       get34 (transposeMul33 r1 M) i k = get34 M k i) /\
    (forall i : nat, i < 3 ->
       get34 (transposeMul33 r1 M) i 3 = get34 M i 3) /\
    transposeMul33 r2 (transposeMul33 r1 M) = M.
Proof.
  intros T ST r1 r2 M. split; [|split].
  - intros i k. apply transposeMul33_block.
  - intros i. apply transposeMul33_translation.
  - apply transposeMul33_involutive.
Qed.

Lemma C7_transpose_involution_witness :
  let junk := Mat34 (Arr3 (Arr4 99 99 99 99) (Arr4 99 99 99 99)
                          (Arr4 99 99 99 99))%R in
  let M := Mat34 (Arr3 (Arr4 1 2 3 4) (Arr4 5 6 7 8) (Arr4 9 10 11 12))%R in
  (0 < 3 /\ 2 < 3) /\
  get34 (transposeMul33 junk M) 0 2 = 9%R /\
  get34 (transposeMul33 junk M) 2 3 = 12%R /\
  transposeMul33 junk (transposeMul33 junk M) = M.
Proof.
  intros junk M.
  destruct (C7_transpose_involution R_Scalar junk junk M) as [Hb [Ht Hi]].
  split; [lia|]. split; [|split].
  - rewrite Hb by lia. reflexivity.
  - rewrite Ht by lia. reflexivity.
  - exact Hi.
Defined.

(** For all 3x4 matrices [A] and [B], entry [[i][j]] of [matMul33 A B] is
    the sum over [k] in [0 .. 2] of [A[i][k] * B[k][j]] for [i], [j] in
    [0 .. 2], and the translation column is not written: entry [[i][3]]
    keeps the initial content of the local [result], whatever [A] and [B]
    are.  In every scalar arithmetic.  Over the reals, [matMul33 I M] has
    the 3x3 block of [M] when the 3x3 block of [I] is the identity. *)
Lemma matMul33_laws_real :
  (forall (T : Type) (ST : Scalar T) (result A B : HmdMatrix34_t T),
      (forall i j : nat, i < 3 -> j < 3 ->
         get34 (matMul33 result A B) i j =
         sigma 3 (fun k => get34 A i k * get34 B k j)%S) /\
      (forall i : nat, i < 3 ->
         get34 (matMul33 result A B) i 3 = get34 result i 3)) /\
  (forall (result I M : HmdMatrix34_t R),
      identity_block I ->
      forall i j : nat, i < 3 -> j < 3 ->
        get34 (matMul33 result I M) i j = get34 M i j).
Proof.
  split.
  - intros T ST result A B. split.
    + intros i j. apply matMul33_block.
    + intros i. apply matMul33_translation.
  - intros result I M HI i j Hi Hj. apply matMul33_identity_l; assumption.
Qed.

(** ** IEEE 754: degenerate inputs *)

Section FloatFacts.
Variables prec emax : Z.

(** [a == b] on finite floats: the same sign, mantissa and exponent. *)
Lemma SFeqb_finite (sa sb : bool) (ma mb : positive) (ea eb : Z) :
  SFeqb (S754_finite sa ma ea) (S754_finite sb mb eb) = true ->
  sa = sb /\ ma = mb /\ ea = eb.
Proof.
  unfold SFeqb, SFcompare.
  change (PosDef.Pos.compare_cont Eq ma mb) with (Pos.compare ma mb).
  destruct sa, sb; try discriminate;
    destruct (Z.compare_spec ea eb); try discriminate;
    destruct (Pos.compare_spec ma mb); try discriminate;
    intros _; subst; repeat split.
Qed.

Lemma SFsub_diag (s : bool) (m : positive) (e : Z) :
  SFsub prec emax (S754_finite s m e) (S754_finite s m e) = S754_zero false.
Proof.
  assert (Hdiag : forall a : Z, IntDef.Z.sub a a = 0%Z)
    by (intros a; apply Z.sub_diag).
  unfold SFsub. rewrite Z.min_id. unfold shl_align.
  rewrite ?Hdiag. reflexivity.
Qed.

(** The difference of two floats that compare equal is a zero, or a NaN
    when both are the same infinity. *)
Lemma SFeqb_sub (a b : spec_float) :
  SFeqb a b = true ->
  zero_or_nan (SFsub prec emax a b) = true /\
  zero_or_nan (SFsub prec emax b a) = true.
Proof.
  destruct a as [sa | sa | | sa ma ea], b as [sb | sb | | sb mb eb];
    try (unfold SFeqb; cbn [SFcompare]; try discriminate;
         destruct sa, sb; cbn; intros; try discriminate; split;
         reflexivity).
  intros H. apply SFeqb_finite in H. destruct H as (-> & -> & ->).
  rewrite SFsub_diag. split; reflexivity.
Qed.

(** A product with an infinity or a NaN is an infinity or a NaN. *)
Lemma SFmul_inf_or_nan (a b : spec_float) :
  is_inf_or_nan b = true -> is_inf_or_nan (SFmul prec emax a b) = true.
Proof.
  destruct b; try discriminate; intros _; destruct a; reflexivity.
Qed.
End FloatFacts.

Section Binary32.
#[local] Existing Instance binary32.
Local Open Scope scalar_scope.

Lemma binary32_mul_inf_or_nan (a b : spec_float) :
  is_inf_or_nan b = true -> is_inf_or_nan (a * b) = true.
Proof. apply SFmul_inf_or_nan. Qed.

(** [1.0f / (a - b)] when [a == b] or [b == a]. *)
Lemma binary32_reciprocal_of_equal (a b : spec_float) :
  SFeqb a b = true \/ SFeqb b a = true ->
  is_inf_or_nan (s_one / (a - b)) = true.
Proof.
  intros H. change (a - b) with (SFsub 24 128 a b).
  assert (Hz : zero_or_nan (SFsub 24 128 a b) = true)
    by (destruct H as [H | H]; apply (SFeqb_sub 24 128) in H; tauto).
  destruct (SFsub 24 128 a b); try discriminate; reflexivity.
Qed.

(** [1.f / w] when [w == 0]. *)
Lemma binary32_reciprocal_of_zero (d : spec_float) :
  SFeqb d s_zero = true -> is_inf_or_nan (s_one / d) = true.
Proof.
  destruct d as [s | s | | s m e]; try destruct s; try discriminate;
    reflexivity.
Qed.

(** C6: in IEEE 754 binary32 arithmetic no degenerate input is detected
    or corrected, and every function is total.  [makeProjection] with
    [fLeft == fRight] stores an infinity or a NaN in [p[0][0]] and
    [p[0][2]], with [fTop == fBottom] in [p[1][1]] and [p[1][2]], with
    [zNear == zFar] in [p[2][2]] and [p[2][3]]; and when component 3 of
    [matMul44 p P] is zero, each of the three components [project P p]
    returns is an infinity or a NaN. *)
Theorem C6_degenerate_inputs_propagate :
  forall (fLeft fRight fTop fBottom zNear zFar : spec_float)
         (pmProj P : HmdMatrix44_t spec_float) (p : HmdVector4_t spec_float),
    let proj :=
      makeProjection fLeft fRight fTop fBottom zNear zFar pmProj in
    let ndc := project P p in
    (SFeqb fLeft fRight = true ->
     is_inf_or_nan (get44 proj 0 0) = true /\
     is_inf_or_nan (get44 proj 0 2) = true) /\
    (SFeqb fTop fBottom = true ->
     is_inf_or_nan (get44 proj 1 1) = true /\
     is_inf_or_nan (get44 proj 1 2) = true) /\
    (SFeqb zNear zFar = true ->
     is_inf_or_nan (get44 proj 2 2) = true /\
     is_inf_or_nan (get44 proj 2 3) = true) /\
    (SFeqb (get4 (v4 (matMul44 p P)) 3) s_zero = true ->
     is_inf_or_nan (get3 (v3 ndc) 0) = true /\
     is_inf_or_nan (get3 (v3 ndc) 1) = true /\
     is_inf_or_nan (get3 (v3 ndc) 2) = true).
Proof.
  intros fLeft fRight fTop fBottom zNear zFar pmProj P p proj ndc.
  subst proj ndc.
  rewrite makeProjection_entries, project_reciprocal. cbv zeta.
  unfold get44.
  cbn [get4 get3 m44 v3 a4_0 a4_1 a4_2 a4_3 a3_0 a3_1 a3_2].
  split; [|split; [|split]]; intros Hdeg; repeat split;
    apply binary32_mul_inf_or_nan;
    first [ apply binary32_reciprocal_of_equal; tauto
          | apply binary32_reciprocal_of_zero; assumption ].
Qed.

Lemma C6_degenerate_inputs_propagate_witness :
  let one : spec_float := s_one in
  let zeros := Arr4 s_zero s_zero s_zero s_zero in
  let P := Mat44 (Arr4 zeros zeros zeros zeros) in
  let p := Vec4 zeros in
  (SFeqb one one = true /\
   SFeqb (get4 (v4 (matMul44 p P)) 3) s_zero = true) /\
  is_inf_or_nan (get44 (makeProjection one one one one one one P) 0 0)
    = true /\
  is_inf_or_nan (get44 (makeProjection one one one one one one P) 1 2)
    = true /\
  is_inf_or_nan (get44 (makeProjection one one one one one one P) 2 3)
    = true /\
  is_inf_or_nan (get3 (v3 (project P p)) 0) = true.
Proof.
  intros one zeros P p.
  destruct (C6_degenerate_inputs_propagate one one one one one one P P p)
    as (Hx & Hy & Hz & Hw).
  assert (H1 : SFeqb one one = true) by reflexivity.
  assert (H0 : SFeqb (get4 (v4 (matMul44 p P)) 3) s_zero = true)
    by reflexivity.
  split; [split; assumption|].
  split; [apply (Hx H1)|]. split; [apply (Hy H1)|].
  split; [apply (Hz H1)|]. apply (Hw H0).
Defined.
End Binary32.

(** ** Concrete evaluations over the reals *)

Section ExamplesReal.
Local Open Scope R_scope.

Lemma sqrt_4 : sqrt 4 = 2.
Proof.
  replace 4 with (2 * 2) by ring. apply sqrt_square. lra.
Qed.

(** Without the unit norm the round trip scales: [q = (2, 0, 0, 0)] maps
    [(1, 0, 0)] to [(16, 0, 0)]. *)
Example rotate_round_trip_not_unit :
  let q := Quat 2 0 0 0 in
  let v := Vec3d (Arr3 1 0 0) in
  quaternionRotateVector q (quaternionRotateVector q v false) true =
  Vec3d (Arr3 16 0 0).
Proof.
  cbv zeta. rewrite rotate_forward_reverse.
  apply vec3d_ext; unfold norm2; cbn; ring.
Qed.

(** The identity matrix: the trace branch, and the identity quaternion up
    to the sign of the zeros. *)
Example quaternionFromRotationMatrix_identity :
  quaternionFromRotationMatrix
    (Mat34 (Arr3 (Arr4 1 0 0 0) (Arr4 0 1 0 0) (Arr4 0 0 1 0)))
  = Quat 1 0 0 0.
Proof.
  rewrite quaternionFromRotationMatrix_branches. cbv zeta.
  cbn [get34 get3 get4 m34 a3_0 a3_1 a3_2 a4_0 a4_1 a4_2 a4_3 promote
       R_Promote s_add s_gt s_zero R_Scalar].
  assert (Ht : Rgtb (1 + 1 + 1) 0 = true) by (apply Rgtb_true; lra).
  rewrite Ht. unfold extract, extract_trace. cbn.
  replace (1 + 1 + 1 + 1) with 4 by ring. rewrite sqrt_4.
  apply quat_ext; cbn; field.
Qed.

(** The half turn about the first axis, [diag(1, -1, -1)]: the trace is
    not positive, [m[0][0]] is the largest diagonal entry, and the [x] the
    branch computes, [1], is returned as [-1]. *)
Example quaternionFromRotationMatrix_half_turn :
  quaternionFromRotationMatrix
    (Mat34 (Arr3 (Arr4 1 0 0 0) (Arr4 0 (-1) 0 0) (Arr4 0 0 (-1) 0)))
  = Quat 0 (-1) 0 0.
Proof.
  rewrite quaternionFromRotationMatrix_branches. cbv zeta.
  cbn [get34 get3 get4 m34 a3_0 a3_1 a3_2 a4_0 a4_1 a4_2 a4_3 promote
       R_Promote s_add s_gt s_zero R_Scalar].
  assert (Ht : Rgtb (1 + -1 + -1) 0 = false) by (apply Rgtb_false; lra).
  assert (H1 : Rgtb 1 (-1) = true) by (apply Rgtb_true; lra).
  rewrite Ht, H1. cbn [andb]. unfold extract, extract_m00. cbn.
  replace (1 + 1 - -1 - -1) with 4 by ring. rewrite sqrt_4.
  apply quat_ext; cbn; field.
Qed.
End ExamplesReal.

(** ** Concrete evaluations in binary32 *)

Section Examples.
#[local] Existing Instance binary32.
Local Open Scope scalar_scope.

(** [i * j = k] and [j * i = -k], in floating point as over the reals. *)
Example quat_mul_i_j_float :
  quat_mul (Quat s_zero s_one s_zero s_zero) (Quat s_zero s_zero s_one s_zero)
  = Quat s_zero s_zero s_zero s_one /\
  quat_mul (Quat s_zero s_zero s_one s_zero) (Quat s_zero s_one s_zero s_zero)
  = Quat s_zero s_zero s_zero (- s_one).
Proof. split; reflexivity. Qed.

(** [makeProjection(1, 1, 1, 1, 1, 1, p)]: infinities. *)
Example makeProjection_equal_bounds :
  forall junk : HmdMatrix44_t spec_float,
    let p := makeProjection s_one s_one s_one s_one s_one s_one junk in
    get44 p 0 0 = S754_infinity false /\ get44 p 0 2 = S754_infinity false /\
    get44 p 1 1 = S754_infinity false /\ get44 p 2 3 = S754_infinity false.
Proof. intros junk. repeat split; reflexivity. Qed.

(** [makeProjection(0, 0, 1, 2, 1, 2, p)]: [sx * idx] is [0 * inf], a
    NaN, while the row of the bounds that differ is finite. *)
Example makeProjection_zero_width :
  forall junk : HmdMatrix44_t spec_float,
    let p := makeProjection s_zero s_zero s_one s_two s_one s_two junk in
    get44 p 0 0 = S754_infinity false /\ get44 p 0 2 = S754_nan /\
    get44 p 1 1 = s_two /\ get44 p 1 2 = s_one + s_two /\
    get44 p 3 2 = - s_one.
Proof. intros junk. repeat split; reflexivity. Qed.

(** [project] on a point whose transformed [w] is zero. *)
Example project_zero_w :
  let P := Mat44 (Arr4 (Arr4 s_one s_zero s_zero s_zero)
                       (Arr4 s_zero s_one s_zero s_zero)
                       (Arr4 s_zero s_zero s_one s_zero)
                       (Arr4 s_zero s_zero s_zero s_one)) in
  project P (Vec4 (Arr4 s_one s_zero s_two s_zero)) =
  Vec3 (Arr3 (S754_infinity false) S754_nan (S754_infinity false)).
Proof. reflexivity. Qed.

(** The identity matrix of [float] entries, converted in [double]
    arithmetic: [w] is one and the three negated zeros are negative
    zeros. *)
Example quaternionFromRotationMatrix_identity_float :
  forall fcos fsin : spec_float -> spec_float,
    @quaternionFromRotationMatrix _ _ binary32 binary64
      (float_Libm 53 1024 fcos fsin) binary32_64_Promote
      (Mat34 (Arr3 (Arr4 s_one s_zero s_zero s_zero)
                   (Arr4 s_zero s_one s_zero s_zero)
                   (Arr4 s_zero s_zero s_one s_zero)))
    = Quat (@s_one _ binary64) (S754_zero true) (S754_zero true)
           (S754_zero true).
Proof. intros fcos fsin. reflexivity. Qed.

(** Rounding is visible where the laws over the reals use exactness.
    [project] multiplies by the rounded reciprocal: with [w = 3] and
    [x = 5] it returns [13981014 * 2^-23], one unit in the last place
    above the rounded quotient [5 / 3]. *)
Example project_reciprocal_rounding :
  let three := s_one + s_two in
  let five := s_two + three in
  let P := Mat44 (Arr4 (Arr4 s_one s_zero s_zero s_zero)
                       (Arr4 s_zero s_one s_zero s_zero)
                       (Arr4 s_zero s_zero s_one s_zero)
                       (Arr4 s_zero s_zero s_zero s_one)) in
  get3 (v3 (project P (Vec4 (Arr4 five s_zero s_zero three)))) 0
    = S754_finite false 13981014 (-23) /\
  five / three = S754_finite false 13981013 (-23).
Proof. split; reflexivity. Qed.

(** [matMul33] with an identity block on the left and an infinite entry
    in [M]: [0 * inf] is a NaN, which the sum of the column keeps. *)
Example matMul33_identity_infinite_entry :
  forall junk : HmdMatrix34_t spec_float,
    let inf := S754_infinity false in
    let I := Mat34 (Arr3 (Arr4 s_one s_zero s_zero s_zero)
                         (Arr4 s_zero s_one s_zero s_zero)
                         (Arr4 s_zero s_zero s_one s_zero)) in
    let M := Mat34 (Arr3 (Arr4 s_two s_zero s_zero s_zero)
                         (Arr4 inf s_one s_zero s_zero)
                         (Arr4 s_zero s_zero s_one s_zero)) in
    get34 (matMul33 junk I M) 0 0 = S754_nan /\
    get34 (matMul33 junk I M) 1 1 = s_one.
Proof. intros junk. split; reflexivity. Qed.
End Examples.

(** * Further properties of the header *)

(** ** The algebra of quaternions, over the reals *)

Section QuaternionAlgebra.
Local Open Scope R_scope.

Lemma norm2_mul (p q : HmdQuaternion_t R) :
  norm2 (quat_mul p q) = norm2 p * norm2 q.
Proof. destruct p, q; unfold norm2; cbn; ring. Qed.

Lemma norm2_rotationX (rot : R) : norm2 (quaternionFromRotationX rot) = 1.
Proof.
  unfold norm2; cbn. pose proof (sin2_cos2 (rot / 2)) as H.
  unfold Rsqr in H. lra.
Qed.

Lemma norm2_rotationY (rot : R) : norm2 (quaternionFromRotationY rot) = 1.
Proof.
  unfold norm2; cbn. pose proof (sin2_cos2 (rot / 2)) as H.
  unfold Rsqr in H. lra.
Qed.

Lemma norm2_rotationZ (rot : R) : norm2 (quaternionFromRotationZ rot) = 1.
Proof.
  unfold norm2; cbn. pose proof (sin2_cos2 (rot / 2)) as H.
  unfold Rsqr in H. lra.
Qed.

(** X1: over the reals the product [operator*] is associative and
    [(1, 0, 0, 0)] is its unit on both sides. *)
Theorem X1_quat_mul_monoid :
  forall p q r : HmdQuaternion_t R,
    quat_mul (quat_mul p q) r = quat_mul p (quat_mul q r) /\
    quat_mul (Quat 1 0 0 0) q = q /\
    quat_mul q (Quat 1 0 0 0) = q.
Proof.
  intros p q r. split; [apply quat_mul_assoc|].
  destruct q; split; apply quat_ext; cbn; ring.
Qed.

(** X2: over the reals the product distributes over [operator+] and
    [operator-] of quaternions, on the left and on the right. *)
Theorem X2_quat_mul_distributes :
  forall p q r : HmdQuaternion_t R,
    quat_mul p (quat_add q r) = quat_add (quat_mul p q) (quat_mul p r) /\
    quat_mul (quat_add p q) r = quat_add (quat_mul p r) (quat_mul q r) /\
    quat_mul p (quat_sub q r) = quat_sub (quat_mul p q) (quat_mul p r) /\
    quat_mul (quat_sub p q) r = quat_sub (quat_mul p r) (quat_mul q r).
Proof.
  intros [pw px py pz] [qw qx qy qz] [rw rx ry rz].
  repeat split; apply quat_ext; cbn; ring.
Qed.

(** X3: over the reals the squared norm is multiplicative:
    [|p * q|^2 = |p|^2 * |q|^2]; so a product of unit quaternions is a unit
    quaternion. *)
Theorem X3_norm_multiplicative :
  forall p q : HmdQuaternion_t R,
    norm2 (quat_mul p q) = norm2 p * norm2 q /\
    (norm2 p = 1 -> norm2 q = 1 -> norm2 (quat_mul p q) = 1).
Proof.
  intros p q. split; [apply norm2_mul|].
  intros Hp Hq. rewrite norm2_mul, Hp, Hq. ring.
Qed.

Lemma X3_norm_multiplicative_witness :
  let p := Quat 0 1 0 0 in
  let q := Quat 0 0 1 0 in
  (norm2 p = 1 /\ norm2 q = 1) /\ norm2 (quat_mul p q) = 1.
Proof.
  intros p q.
  assert (Hp : norm2 p = 1) by (unfold norm2; cbn; lra).
  assert (Hq : norm2 q = 1) by (unfold norm2; cbn; lra).
  split; [split; assumption|].
  exact (proj2 (X3_norm_multiplicative p q) Hp Hq).
Defined.

(** X4: over the reals [quaternionConjugate] is an involution that
    reverses products and keeps the norm, and [q * conj q] and
    [conj q * q] are both the real quaternion [(|q|^2, 0, 0, 0)]: the
    conjugate of a unit quaternion is its inverse. *)
Theorem X4_conjugate :
  forall p q : HmdQuaternion_t R,
    quaternionConjugate (quaternionConjugate q) = q /\
    quaternionConjugate (quat_mul p q) =
      quat_mul (quaternionConjugate q) (quaternionConjugate p) /\
    norm2 (quaternionConjugate q) = norm2 q /\
    quat_mul q (quaternionConjugate q) = Quat (norm2 q) 0 0 0 /\
    quat_mul (quaternionConjugate q) q = Quat (norm2 q) 0 0 0.
Proof.
  intros [pw px py pz] [qw qx qy qz].
  repeat split; try (apply quat_ext; unfold norm2; cbn; ring).
  unfold norm2; cbn; ring.
Qed.
End QuaternionAlgebra.

(** ** Constructors of rotations, over the reals *)

Section Constructors.
Local Open Scope R_scope.

Lemma half_opp (rot : R) : - rot / 2 = - (rot / 2).
Proof. field. Qed.

(** X5: over the reals, [quaternionFromRotationAxis rot ux uy uz] has
    squared norm [cos^2 + (ux^2 + uy^2 + uz^2) * sin^2] of the half angle,
    hence norm one when the axis has length one; and the opposite angle
    gives the conjugate quaternion. *)
Theorem X5_rotation_axis_unit :
  forall rot ux uy uz : R,
    (ux * ux + uy * uy + uz * uz = 1 ->
     norm2 (quaternionFromRotationAxis rot ux uy uz) = 1) /\
    quaternionFromRotationAxis (- rot) ux uy uz =
      quaternionConjugate (quaternionFromRotationAxis rot ux uy uz).
Proof.
  intros rot ux uy uz. split.
  - intros Hu. unfold norm2, quaternionFromRotationAxis; cbn.
    pose proof (sin2_cos2 (rot / 2)) as H. unfold Rsqr in H.
    set (c := cos (rot / 2)) in *. set (s := sin (rot / 2)) in *.
    transitivity (c * c + (ux * ux + uy * uy + uz * uz) * (s * s));
      [ring | rewrite Hu; lra].
  - unfold quaternionFromRotationAxis, quaternionConjugate; cbn.
    rewrite half_opp, cos_neg, sin_neg. apply quat_ext; cbn; ring.
Qed.

Lemma X5_rotation_axis_unit_witness :
  (0 * 0 + 0 * 0 + 1 * 1 = 1) /\
  norm2 (quaternionFromRotationAxis PI 0 0 1) = 1.
Proof.
  assert (Hu : 0 * 0 + 0 * 0 + 1 * 1 = 1) by lra.
  split; [exact Hu|].
  exact (proj1 (X5_rotation_axis_unit PI 0 0 1) Hu).
Defined.

(** X6: over the reals, [quaternionFromRotationX], [...Y] and [...Z] are
    [quaternionFromRotationAxis] on the axes [(1,0,0)], [(0,1,0)] and
    [(0,0,1)], and each is a unit quaternion. *)
Theorem X6_rotation_XYZ_are_axis_rotations :
  forall rot : R,
    quaternionFromRotationX rot = quaternionFromRotationAxis rot 1 0 0 /\
    quaternionFromRotationY rot = quaternionFromRotationAxis rot 0 1 0 /\
    quaternionFromRotationZ rot = quaternionFromRotationAxis rot 0 0 1 /\
    norm2 (quaternionFromRotationX rot) = 1 /\
    norm2 (quaternionFromRotationY rot) = 1 /\
    norm2 (quaternionFromRotationZ rot) = 1.
Proof.
  intros rot.
  repeat split;
    try (apply quat_ext; cbn; ring);
    auto using norm2_rotationX, norm2_rotationY, norm2_rotationZ.
Qed.

(** X7: over the reals, [quaternionFromYawPitchRoll] returns a unit
    quaternion for all angles. *)
Theorem X7_yaw_pitch_roll_unit :
  forall yaw pitch roll : R,
    norm2 (quaternionFromYawPitchRoll yaw pitch roll) = 1.
Proof.
  intros yaw pitch roll. unfold quaternionFromYawPitchRoll.
  rewrite !norm2_mul, norm2_rotationX, norm2_rotationY, norm2_rotationZ.
  ring.
Qed.
End Constructors.

(** ** Rotation of vectors, over the reals *)

Section Rotation.
Local Open Scope R_scope.

(** X8: over the reals, [quaternionRotateVector] multiplies the squared
    length of the vector by [|q|^4], forward and in reverse; a unit
    quaternion keeps lengths. *)
Theorem X8_rotation_length :
  forall (q : HmdQuaternion_t R) (v : HmdVector3d_t R) (reverse : bool),
    vec_norm2 (quaternionRotateVector q v reverse) =
      norm2 q * norm2 q * vec_norm2 v /\
    (norm2 q = 1 ->
     vec_norm2 (quaternionRotateVector q v reverse) = vec_norm2 v).
Proof.
  intros q v reverse.
  assert (H : vec_norm2 (quaternionRotateVector q v reverse) =
              norm2 q * norm2 q * vec_norm2 v).
  { destruct q as [qw qx qy qz], v as [[v0 v1 v2]], reverse;
      unfold vec_norm2, norm2; cbn; ring. }
  split; [exact H|]. intros Hq. rewrite H, Hq. ring.
Qed.

Lemma X8_rotation_length_witness :
  let q := Quat 0 0 0 1 in
  let v := Vec3d (Arr3 1 2 3) in
  norm2 q = 1 /\
  vec_norm2 (quaternionRotateVector q v false) = vec_norm2 v.
Proof.
  intros q v.
  assert (Hq : norm2 q = 1) by (unfold norm2; cbn; lra).
  split; [exact Hq|].
  exact (proj2 (X8_rotation_length q v false) Hq).
Defined.

(** X9: over the reals, rotating by a product is rotating by its factors
    in turn: forward, [p * q] applies [q] first and then [p]; in reverse,
    [p] first and then [q].  Rotating by [(1, 0, 0, 0)] changes nothing. *)
Theorem X9_rotation_composes :
  forall (p q : HmdQuaternion_t R) (v : HmdVector3d_t R) (reverse : bool),
    quaternionRotateVector (quat_mul p q) v false =
      quaternionRotateVector p (quaternionRotateVector q v false) false /\
    quaternionRotateVector (quat_mul p q) v true =
      quaternionRotateVector q (quaternionRotateVector p v true) true /\
    quaternionRotateVector (Quat 1 0 0 0) v reverse = v.
Proof.
  intros [pw px py pz] [qw qx qy qz] [[v0 v1 v2]] reverse.
  repeat split; try (apply vec3d_ext; cbn; ring).
  destruct reverse; apply vec3d_ext; cbn; ring.
Qed.

(** X10: over the reals, rotating in reverse by [q] is rotating forward by
    [quaternionConjugate q], and the other way round. *)
Theorem X10_reverse_is_conjugate :
  forall (q : HmdQuaternion_t R) (v : HmdVector3d_t R),
    quaternionRotateVector q v true =
      quaternionRotateVector (quaternionConjugate q) v false /\
    quaternionRotateVector q v false =
      quaternionRotateVector (quaternionConjugate q) v true.
Proof.
  intros [qw qx qy qz] [[v0 v1 v2]].
  split; apply vec3d_ext; cbn; ring.
Qed.

(** X11: over the reals, for a unit quaternion [q], rotating in reverse
    and then forward gives the vector back; for any [q] the result is the
    vector scaled by [|q|^4]. *)
Theorem X11_reverse_forward_round_trip :
  forall (q : HmdQuaternion_t R) (v : HmdVector3d_t R),
    quaternionRotateVector q (quaternionRotateVector q v true) false =
      vec_scale v (norm2 q * norm2 q) /\
    (norm2 q = 1 ->
     quaternionRotateVector q (quaternionRotateVector q v true) false = v).
Proof.
  intros q v.
  assert (H : quaternionRotateVector q (quaternionRotateVector q v true)
                false = vec_scale v (norm2 q * norm2 q)).
  { destruct q as [qw qx qy qz], v as [[v0 v1 v2]].
    apply vec3d_ext; unfold norm2; cbn; ring. }
  split; [exact H|]. intros Hq. rewrite H, Hq.
  destruct v as [[v0 v1 v2]]. apply vec3d_ext; cbn; ring.
Qed.

Lemma X11_reverse_forward_round_trip_witness :
  let q := Quat 0 0 1 0 in
  let v := Vec3d (Arr3 1 2 3) in
  norm2 q = 1 /\
  quaternionRotateVector q (quaternionRotateVector q v true) false = v.
Proof.
  intros q v.
  assert (Hq : norm2 q = 1) by (unfold norm2; cbn; lra).
  split; [exact Hq|].
  exact (proj2 (X11_reverse_forward_round_trip q v) Hq).
Defined.

(** X12: over the reals, [quaternionRotateVector] is linear in the
    vector: it commutes with [operator+], [operator-] and the product by a
    scalar of [HmdVector3d_t]. *)
Theorem X12_rotation_linear :
  forall (q : HmdQuaternion_t R) (u v : HmdVector3d_t R) (s : R)
         (reverse : bool),
    quaternionRotateVector q (vec_add u v) reverse =
      vec_add (quaternionRotateVector q u reverse)
              (quaternionRotateVector q v reverse) /\
    quaternionRotateVector q (vec_sub u v) reverse =
      vec_sub (quaternionRotateVector q u reverse)
              (quaternionRotateVector q v reverse) /\
    quaternionRotateVector q (vec_scale v s) reverse =
      vec_scale (quaternionRotateVector q v reverse) s.
Proof.
  intros [qw qx qy qz] [[u0 u1 u2]] [[v0 v1 v2]] s reverse.
  destruct reverse; repeat split; apply vec3d_ext; cbn; ring.
Qed.

(** X13: over the reals, the quaternions of [quaternionFromRotationX],
    [...Y] and [...Z] rotate by the angle [rot] about their axis: the
    coordinate on the axis is kept and the other two turn by [rot]. *)
Theorem X13_axis_rotations_turn_by_angle :
  forall (rot v0 v1 v2 : R),
    quaternionRotateVector (quaternionFromRotationX rot)
                           (Vec3d (Arr3 v0 v1 v2)) false =
      Vec3d (Arr3 v0 (cos rot * v1 - sin rot * v2)
                  (sin rot * v1 + cos rot * v2)) /\
    quaternionRotateVector (quaternionFromRotationY rot)
                           (Vec3d (Arr3 v0 v1 v2)) false =
      Vec3d (Arr3 (cos rot * v0 + sin rot * v2) v1
                  (cos rot * v2 - sin rot * v0)) /\
    quaternionRotateVector (quaternionFromRotationZ rot)
                           (Vec3d (Arr3 v0 v1 v2)) false =
      Vec3d (Arr3 (cos rot * v0 - sin rot * v1)
                  (sin rot * v0 + cos rot * v1) v2).
Proof.
  intros rot v0 v1 v2.
  pose proof (cos_2a (rot / 2)) as Hc.
  pose proof (sin_2a (rot / 2)) as Hs.
  pose proof (sin2_cos2 (rot / 2)) as H1. unfold Rsqr in H1.
  replace (2 * (rot / 2)) with rot in Hc, Hs by field.
  rewrite Hc, Hs.
  unfold quaternionFromRotationX, quaternionFromRotationY,
    quaternionFromRotationZ.
  cbn [s_div s_two R_Scalar m_cos m_sin R_Libm].
  set (c := cos (rot / 2)) in *. set (s := sin (rot / 2)) in *.
  assert (Hone : forall t : R, (c * c + s * s) * t = t)
    by (intros t; replace (c * c + s * s) with 1 by lra; ring).
  repeat split; apply vec3d_ext; cbn;
    try ring;
    match goal with
    | |- _ = ?t => transitivity ((c * c + s * s) * t); [ring | apply Hone]
    end.
Qed.
End Rotation.

(** ** Vector operators *)

Section VectorOperators.
Local Open Scope R_scope.

(** X14: over the reals, [operator-] undoes [operator+] on vectors,
    [operator/] undoes [operator*] by a scalar that is not zero, and the
    overloads taking a raw array agree with those taking the struct. *)
Theorem X14_vector_operators_round_trip :
  forall (u v : HmdVector3d_t R) (s : R),
    vec_sub (vec_add v u) u = v /\
    vec_add (vec_sub v u) u = v /\
    (s <> 0 -> vec_div (vec_scale v s) s = v) /\
    vec_add_arr v (v3d u) = vec_add v u /\
    vec_sub_arr v (v3d u) = vec_sub v u.
Proof.
  intros [[u0 u1 u2]] [[v0 v1 v2]] s.
  repeat split; try (apply vec3d_ext; cbn; ring).
  intros Hs. apply vec3d_ext; cbn; field; assumption.
Qed.

Lemma X14_vector_operators_round_trip_witness :
  let v := Vec3d (Arr3 1 2 3) in
  2 <> 0 /\ vec_div (vec_scale v 2) 2 = v.
Proof.
  intros v. assert (H2 : 2 <> 0) by lra.
  split; [exact H2|].
  exact (proj1 (proj2 (proj2 (X14_vector_operators_round_trip v v 2))) H2).
Defined.
End VectorOperators.

Section VectorOperatorsFloat.
Variables prec emax : Z.

Lemma SFdiv_zero_inf_or_nan (a d : spec_float) :
  SFeqb d (S754_zero false) = true ->
  is_inf_or_nan (SFdiv prec emax a d) = true.
Proof.
  destruct d as [s | s | | s m e]; try destruct s; try discriminate;
    intros _; destruct a; reflexivity.
Qed.

(** X15: in IEEE 754 arithmetic of any binary format, [operator/] of a
    vector by a scalar that compares equal to zero is not guarded: each
    component of the result is an infinity or a NaN. *)
Theorem X15_vector_division_by_zero :
  forall (lhs : HmdVector3d_t spec_float) (rhs : spec_float) (i : nat),
    SFeqb rhs (S754_zero false) = true ->
    is_inf_or_nan
      (get3 (v3d (@vec_div _ (float_Scalar prec emax) lhs rhs)) i) = true.
Proof.
  intros lhs rhs i Hz.
  destruct i as [| [| i]]; cbn [vec_div get3 v3d a3_0 a3_1 a3_2];
    apply SFdiv_zero_inf_or_nan; assumption.
Qed.
End VectorOperatorsFloat.

Lemma X15_vector_division_by_zero_witness :
  let one := SFone 53 1024 in
  let v := Vec3d (Arr3 one (S754_zero false) (SFopp one)) in
  SFeqb (S754_zero true) (S754_zero false) = true /\
  is_inf_or_nan
    (get3 (v3d (@vec_div _ binary64 v (S754_zero true))) 1) = true.
Proof.
  intros one v.
  assert (Hz : SFeqb (S754_zero true) (S754_zero false) = true)
    by reflexivity.
  split; [exact Hz|].
  exact (X15_vector_division_by_zero 53 1024 v (S754_zero true) 1 Hz).
Defined.

(** ** [signum] *)

Section Signum.
Local Open Scope R_scope.

Lemma Rltb'_true (a b : R) : Rltb' a b = true <-> a < b.
Proof.
  unfold Rltb'. destruct (Rlt_dec a b); split; intros; try assumption;
    try reflexivity; try discriminate; contradiction.
Qed.

Lemma signum_real_cases (v : R) :
  (0 < v /\ signum v = 1%Z) \/ (v < 0 /\ signum v = (-1)%Z) \/
  (v = 0 /\ signum v = 0%Z).
Proof.
  unfold signum; cbn [s_gt s_lt s_zero R_Scalar]. unfold Rgtb, Rltb'.
  destruct (Rgt_dec v 0) as [Hg | Hg].
  - left. split; [lra | reflexivity].
  - destruct (Rlt_dec v 0) as [Hl | Hl].
    + right; left. split; [lra | reflexivity].
    + right; right. split; [lra | reflexivity].
Qed.

(** X16: over the reals, [signum v] is [1] exactly when [v > 0], [-1]
    exactly when [v < 0] and [0] exactly when [v = 0]; and the sign of a
    product is the product of the signs. *)
Theorem X16_signum_real :
  forall a b : R,
    (signum a = 1%Z <-> 0 < a) /\
    (signum a = (-1)%Z <-> a < 0) /\
    (signum a = 0%Z <-> a = 0) /\
    signum (a * b) = (signum a * signum b)%Z.
Proof.
  intros a b.
  destruct (signum_real_cases a) as [[Ha Hsa] | [[Ha Hsa] | [Ha Hsa]]];
    rewrite Hsa.
  all: repeat split; try (intros; lra); try (intros; discriminate);
    try (intros; reflexivity).
  all: change (s_mul a b) with (a * b);
    destruct (signum_real_cases (a * b)) as [[Hp Hsp] | [[Hp Hsp] | [Hp Hsp]]];
    destruct (signum_real_cases b) as [[Hb Hsb] | [[Hb Hsb] | [Hb Hsb]]];
    rewrite Hsp, Hsb; try reflexivity; exfalso; nra.
Qed.

Lemma X16_signum_real_witness :
  0 < 2 /\ signum 2 = 1%Z /\
  signum (2 * -3) = (signum 2%R * signum (-3)%R)%Z.
Proof.
  assert (H2 : 0 < 2) by lra.
  destruct (X16_signum_real 2 (-3)) as (Hpos & _ & _ & Hmul).
  split; [exact H2|]. split; [exact (proj2 Hpos H2) | exact Hmul].
Defined.
End Signum.

(** X17: in IEEE 754 arithmetic of any binary format, [signum] is [1] on
    the positive numbers and on plus infinity, [-1] on the negative
    numbers and on minus infinity, and [0] on both zeros and on NaN. *)
Theorem X17_signum_float :
  forall (prec emax : Z) (f : spec_float),
    @signum _ (float_Scalar prec emax) f = float_sign f.
Proof.
  intros prec emax f. destruct f as [s | s | | s m e]; try destruct s;
    reflexivity.
Qed.

(** ** Products of matrices and vectors *)

Ltac destruct_mat34 M :=
  destruct M as [[[? ? ? ?] [? ? ? ?] [? ? ? ?]]].

Ltac index3_cases Hi :=
  destruct (lt_3_cases Hi) as [-> | [-> | ->]].

Section MatrixVector.
Local Open Scope R_scope.

Lemma vec3_ext (u v : HmdVector3_t R) :
  get3 (v3 u) 0 = get3 (v3 v) 0 -> get3 (v3 u) 1 = get3 (v3 v) 1 ->
  get3 (v3 u) 2 = get3 (v3 v) 2 -> u = v.
Proof.
  destruct u as [[u0 u1 u2]], v as [[v0 v1 v2]]; cbn; intros; subst;
    reflexivity.
Qed.

(** X18: [matMul33] of a matrix and a vector assigns the three components
    [sum over k of a[i][k] * b[k]], and of a vector and a matrix
    [sum over k of a[k] * b[k][i]], whatever the initial content of the
    local [result] and in every scalar arithmetic; over the reals the
    vector-matrix product is the matrix-vector product with the transposed
    matrix. *)
Theorem X18_matrix_vector_products :
  (forall (T : Type) (ST : Scalar T) (result : HmdVector3_t T)
          (M : HmdMatrix34_t T) (v : HmdVector3_t T),
      matMul33_mv result M v =
        Vec3 (Arr3 (sigma 3 (fun k => get34 M 0 k * get3 (v3 v) k)%S)
                   (sigma 3 (fun k => get34 M 1 k * get3 (v3 v) k)%S)
                   (sigma 3 (fun k => get34 M 2 k * get3 (v3 v) k)%S)) /\
      matMul33_vm result v M =
        Vec3 (Arr3 (sigma 3 (fun k => get3 (v3 v) k * get34 M k 0)%S)
                   (sigma 3 (fun k => get3 (v3 v) k * get34 M k 1)%S)
                   (sigma 3 (fun k => get3 (v3 v) k * get34 M k 2)%S))) /\
  (forall (r1 r2 : HmdVector3_t R) (r3 M : HmdMatrix34_t R)
          (v : HmdVector3_t R),
      matMul33_vm r1 v M = matMul33_mv r2 (transposeMul33 r3 M) v).
Proof.
  split.
  - intros T ST result M v. split; reflexivity.
  - intros r1 r2 r3 M [[v0 v1 v2]]. destruct_mat34 M.
    apply vec3_ext; cbn; ring.
Qed.

(** X19: over the reals, [matMul33] is associative on the 3x3 block, and
    a matrix with the identity block is a right unit on the block. *)
Theorem X19_matMul33_associative :
  forall (r1 r2 r3 r4 A B C : HmdMatrix34_t R) (i j : nat),
    (i < 3)%nat -> (j < 3)%nat ->
    get34 (matMul33 r1 (matMul33 r2 A B) C) i j =
      get34 (matMul33 r3 A (matMul33 r4 B C)) i j /\
    (identity_block C -> get34 (matMul33 r1 A C) i j = get34 A i j).
Proof.
  intros r1 r2 r3 r4 A B C i j Hi Hj. split.
  - destruct_mat34 A; destruct_mat34 B; destruct_mat34 C.
    index3_cases Hi; index3_cases Hj; cbn; ring.
  - intros HC. rewrite matMul33_block, sigma3_real by assumption.
    cbn [s_mul R_Scalar].
    rewrite !HC by (assumption || lia).
    index3_cases Hj; cbn [Nat.eqb]; ring.
Qed.

Lemma X19_matMul33_associative_witness :
  let junk := Mat34 (Arr3 (Arr4 9 9 9 9) (Arr4 9 9 9 9) (Arr4 9 9 9 9)) in
  let I := Mat34 (Arr3 (Arr4 1 0 0 5) (Arr4 0 1 0 6) (Arr4 0 0 1 8)) in
  let M := Mat34 (Arr3 (Arr4 1 2 3 4) (Arr4 5 6 7 8) (Arr4 9 10 11 12)) in
  ((0 < 3)%nat /\ (2 < 3)%nat /\ identity_block I) /\
  get34 (matMul33 junk (matMul33 junk M M) I) 0 2 =
    get34 (matMul33 junk M (matMul33 junk M I)) 0 2 /\
  get34 (matMul33 junk M I) 0 2 = 3.
Proof.
  intros junk I M.
  assert (HI : identity_block I).
  { intros i j Hi Hj. index3_cases Hi; index3_cases Hj; reflexivity. }
  assert (H0 : (0 < 3)%nat) by lia. assert (H2 : (2 < 3)%nat) by lia.
  split; [repeat split; assumption|]. split.
  - exact (proj1 (X19_matMul33_associative junk junk junk junk M M I H0 H2)).
  - rewrite (proj2 (X19_matMul33_associative junk junk junk junk M M I
                      H0 H2) HI).
    reflexivity.
Defined.

(** X20: over the reals, the matrix-vector product is compatible with the
    product of matrices: [(A * B) * v = A * (B * v)]. *)
Theorem X20_matMul33_acts_on_vectors :
  forall (r1 r3 r4 : HmdVector3_t R) (r2 A B : HmdMatrix34_t R)
         (v : HmdVector3_t R),
    matMul33_mv r1 (matMul33 r2 A B) v =
    matMul33_mv r3 A (matMul33_mv r4 B v).
Proof.
  intros r1 r3 r4 r2 A B [[v0 v1 v2]].
  destruct_mat34 A; destruct_mat34 B.
  apply vec3_ext; cbn; ring.
Qed.

(** X21: over the reals, on the 3x3 block the transpose of a product is
    the product of the transposes in the opposite order. *)
Theorem X21_transpose_of_product :
  forall (r1 r2 r3 r4 r5 A B : HmdMatrix34_t R) (i j : nat),
    (i < 3)%nat -> (j < 3)%nat ->
    get34 (transposeMul33 r1 (matMul33 r2 A B)) i j =
    get34 (matMul33 r3 (transposeMul33 r4 B) (transposeMul33 r5 A)) i j.
Proof.
  intros r1 r2 r3 r4 r5 A B i j Hi Hj.
  destruct_mat34 A; destruct_mat34 B.
  index3_cases Hi; index3_cases Hj; cbn; ring.
Qed.

Lemma X21_transpose_of_product_witness :
  let junk := Mat34 (Arr3 (Arr4 9 9 9 9) (Arr4 9 9 9 9) (Arr4 9 9 9 9)) in
  let A := Mat34 (Arr3 (Arr4 1 2 3 4) (Arr4 5 6 7 8) (Arr4 9 10 11 12)) in
  let B := Mat34 (Arr3 (Arr4 0 1 0 0) (Arr4 2 0 0 0) (Arr4 0 0 3 0)) in
  ((1 < 3)%nat /\ (0 < 3)%nat) /\
  get34 (transposeMul33 junk (matMul33 junk A B)) 1 0 =
  get34 (matMul33 junk (transposeMul33 junk B) (transposeMul33 junk A)) 1 0.
Proof.
  intros junk A B.
  assert (H1 : (1 < 3)%nat) by lia. assert (H0 : (0 < 3)%nat) by lia.
  split; [split; assumption|].
  exact (X21_transpose_of_product junk junk junk junk junk A B H1 H0).
Defined.
End MatrixVector.

(** ** More on the rotation matrix to quaternion conversion *)

Section FromRotationMatrixMore.
Local Open Scope R_scope.

Ltac branch_conditions :=
  repeat match goal with
         | H : Rgtb _ _ = true |- _ => apply Rgtb_true in H
         | H : Rgtb _ _ = false |- _ => apply Rgtb_false in H
         end.

(** X22: over the reals, the quaternion of the transposed matrix is the
    conjugate of the quaternion of the matrix when the trace is positive,
    and the opposite of that conjugate otherwise: in both cases the
    inverse rotation. *)
Theorem X22_transposed_matrix_gives_conjugate :
  forall (result M : HmdMatrix34_t R),
    let q : HmdQuaternion_t R := quaternionFromRotationMatrix M in
    let qt : HmdQuaternion_t R :=
      quaternionFromRotationMatrix (transposeMul33 result M) in
    (get34 M 0 0 + get34 M 1 1 + get34 M 2 2 > 0 ->
     qt = quaternionConjugate q) /\
    (get34 M 0 0 + get34 M 1 1 + get34 M 2 2 <= 0 ->
     qt = quat_opp (quaternionConjugate q)).
Proof.
  intros result M q qt. subst q qt.
  rewrite !(quaternionFromRotationMatrix_branches (D := R)). cbv zeta.
  destruct M as [[[m00 m01 m02 m03] [m10 m11 m12 m13] [m20 m21 m22 m23]]].
  cbn [transposeMul33 for_loop fold_left seq set34 get34 set3 get3 set4 get4
       m34 a3_0 a3_1 a3_2 a4_0 a4_1 a4_2 a4_3 promote R_Promote s_add s_gt
       s_zero R_Scalar].
  split; intros Ht.
  - apply Rgtb_true in Ht. rewrite Ht.
    apply quat_ext; cbn; first [reflexivity | ring].
  - apply Rgtb_false in Ht. rewrite Ht.
    destruct (Rgtb m00 m11 && Rgtb m00 m22); [|destruct (Rgtb m11 m22)];
      apply quat_ext; cbn; unfold Rdiv; first [reflexivity | ring].
Qed.

Lemma X22_transposed_matrix_gives_conjugate_witness :
  let junk := Mat34 (Arr3 (Arr4 9 9 9 9) (Arr4 9 9 9 9) (Arr4 9 9 9 9)) in
  let M := Mat34 (Arr3 (Arr4 0 (-1) 0 4) (Arr4 1 0 0 5) (Arr4 0 0 1 6)) in
  let N := Mat34 (Arr3 (Arr4 1 0 0 4) (Arr4 0 0 1 5) (Arr4 0 (-1) (-1) 6)) in
  (get34 M 0 0 + get34 M 1 1 + get34 M 2 2 > 0 /\
   get34 N 0 0 + get34 N 1 1 + get34 N 2 2 <= 0) /\
  quaternionFromRotationMatrix (transposeMul33 junk M) =
    quaternionConjugate (quaternionFromRotationMatrix M) /\
  quaternionFromRotationMatrix (transposeMul33 junk N) =
    quat_opp (quaternionConjugate (quaternionFromRotationMatrix N)).
Proof.
  intros junk M N.
  assert (HM : get34 M 0 0 + get34 M 1 1 + get34 M 2 2 > 0) by (cbn; lra).
  assert (HN : get34 N 0 0 + get34 N 1 1 + get34 N 2 2 <= 0) by (cbn; lra).
  split; [split; assumption|]. split.
  - exact (proj1 (X22_transposed_matrix_gives_conjugate junk M) HM).
  - exact (proj2 (X22_transposed_matrix_gives_conjugate junk N) HN).
Defined.

Lemma sqrt_ge_1 (r : R) : 1 <= r -> 1 <= sqrt r.
Proof.
  intros Hr. rewrite <- sqrt_1 at 1. apply sqrt_le_1_alt. exact Hr.
Qed.

(** With a positive trace, [w] is half the root of the trace plus one. *)
Lemma trace_branch_w (M : HmdMatrix34_t R) :
  let q : HmdQuaternion_t R := quaternionFromRotationMatrix M in
  let trace := get34 M 0 0 + get34 M 1 1 + get34 M 2 2 in
  trace > 0 -> w q = sqrt (trace + 1) / 2 /\ w q > 1 / 2.
Proof.
  intros q trace Ht. subst q trace.
  rewrite (quaternionFromRotationMatrix_branches (D := R)). cbv zeta.
  cbn [promote R_Promote s_add s_gt s_zero R_Scalar].
  pose proof Ht as Hpos. apply Rgtb_true in Ht. rewrite Ht.
  unfold extract, extract_trace.
  cbn [w s_div s_add s_half s_quarter s_one m_sqrt R_Scalar R_Libm].
  set (t := get34 M 0 0 + get34 M 1 1 + get34 M 2 2) in *.
  assert (Hs : 1 < sqrt (t + 1)).
  { rewrite <- sqrt_1 at 1. apply sqrt_lt_1_alt. lra. }
  cbn [promote R_Promote].
  split; [field; lra|].
  replace (1 / 4 / (1 / 2 / sqrt (t + 1))) with (sqrt (t + 1) / 2)
    by (field; lra).
  lra.
Qed.

(** X23: over the reals and for every matrix, the radicand of each branch
    is at least one, so no branch divides by zero: with a positive trace
    the result has [w = sqrt (trace + 1) / 2 > 1/2], and otherwise one of
    [x], [y], [z] (that of the branch taken) is at most [-1/2]; the result
    is never the zero quaternion. *)
Theorem X23_dominant_component :
  forall M : HmdMatrix34_t R,
    let q : HmdQuaternion_t R := quaternionFromRotationMatrix M in
    let trace := get34 M 0 0 + get34 M 1 1 + get34 M 2 2 in
    (trace > 0 -> w q = sqrt (trace + 1) / 2 /\ w q > 1 / 2) /\
    (trace <= 0 -> x q <= - (1 / 2) \/ y q <= - (1 / 2) \/ z q <= - (1 / 2)).
Proof.
  intros M q trace. subst q trace.
  split; intros Ht.
  - exact (@trace_branch_w M Ht).
  - rewrite (quaternionFromRotationMatrix_branches (D := R)). cbv zeta.
    cbn [promote R_Promote s_add s_gt s_zero R_Scalar].
    apply Rgtb_false in Ht. rewrite Ht.
    destruct (Rgtb (get34 M 0 0) (get34 M 1 1)) eqn:H01;
      destruct (Rgtb (get34 M 0 0) (get34 M 2 2)) eqn:H02;
      destruct (Rgtb (get34 M 1 1) (get34 M 2 2)) eqn:H12;
      cbn [andb]; branch_conditions;
      unfold extract, extract_m00, extract_m11, extract_m22;
      cbn [x y z s_neg s_mul s_sub s_add s_two s_quarter s_one m_sqrt promote
           R_Promote R_Scalar R_Libm];
      match goal with
      | |- context [sqrt ?r] =>
          assert (Hr : 1 <= sqrt r)
            by (apply sqrt_ge_1;
                destruct (Rle_dec 0 (get34 M 0 0));
                destruct (Rle_dec 0 (get34 M 1 1));
                destruct (Rle_dec 0 (get34 M 2 2)); lra)
      end.
    all: first [ left; lra | right; left; lra | right; right; lra ].
Qed.

Lemma X23_dominant_component_witness :
  let M := Mat34 (Arr3 (Arr4 1 0 0 0) (Arr4 0 (-1) 0 0) (Arr4 0 0 (-1) 0)) in
  let q : HmdQuaternion_t R := quaternionFromRotationMatrix M in
  get34 M 0 0 + get34 M 1 1 + get34 M 2 2 <= 0 /\
  (x q <= - (1 / 2) \/ y q <= - (1 / 2) \/ z q <= - (1 / 2)).
Proof.
  intros M q.
  assert (HM : get34 M 0 0 + get34 M 1 1 + get34 M 2 2 <= 0) by (cbn; lra).
  split; [exact HM|].
  exact (proj2 (X23_dominant_component M) HM).
Defined.
End FromRotationMatrixMore.

(** ** Projection *)

Section Projection.
Local Open Scope R_scope.

(** X24: [makeProjection] assigns all sixteen entries, so its result does
    not depend on the matrix passed in, and its last row is [0, 0, -1, 0],
    in every scalar arithmetic; over the reals, bounds that are symmetric
    ([fRight = - fLeft], [fBottom = - fTop]) give zero off-axis terms
    [p[0][2]] and [p[1][2]]. *)
Theorem X24_makeProjection_entries :
  (forall (T : Type) (ST : Scalar T) (fLeft fRight fTop fBottom zNear zFar : T)
          (p1 p2 : HmdMatrix44_t T),
      makeProjection fLeft fRight fTop fBottom zNear zFar p1 =
      makeProjection fLeft fRight fTop fBottom zNear zFar p2 /\
      get4 (m44 (makeProjection fLeft fRight fTop fBottom zNear zFar p1)) 3 =
      Arr4 s_zero s_zero (- s_one)%S s_zero) /\
  (forall (fLeft fTop zNear zFar : R) (p : HmdMatrix44_t R),
      let P := makeProjection fLeft (- fLeft) fTop (- fTop) zNear zFar p in
      get44 P 0 2 = 0 /\ get44 P 1 2 = 0).
Proof.
  split.
  - intros T ST fLeft fRight fTop fBottom zNear zFar p1 p2.
    split; reflexivity.
  - intros fLeft fTop zNear zFar p P. subst P.
    rewrite makeProjection_entries. cbv zeta. split; cbn; ring.
Qed.

(** X25: over the reals, with the projection of a rectangle whose corners
    differ in both coordinates, a point at depth [d <> 0] in front of the
    viewer on the ray of the top left corner, [(left * d, top * d, - d)],
    projects to [x = -1], [y = -1], and on the ray of the bottom right
    corner to [x = 1], [y = 1]; a point on the near plane projects to
    depth [-1] and one on the far plane to depth [1]. *)
Theorem X25_project_maps_frustum_to_cube :
  forall (eye : HmdRect2_t R) (zNear zFar : R) (pmProj : HmdMatrix44_t R)
         (d pw px py : R),
    let left := get2 (v2 (vTopLeft eye)) 0 in
    let top := get2 (v2 (vTopLeft eye)) 1 in
    let right := get2 (v2 (vBottomRight eye)) 0 in
    let bottom := get2 (v2 (vBottomRight eye)) 1 in
    let P := makeProjection_rect eye zNear zFar pmProj in
    right <> left -> bottom <> top -> d <> 0 ->
    zNear <> zFar -> zNear <> 0 -> zFar <> 0 ->
    let tl := project P (Vec4 (Arr4 (left * d) (top * d) (- d) pw)) in
    let br := project P (Vec4 (Arr4 (right * d) (bottom * d) (- d) pw)) in
    get3 (v3 tl) 0 = -1 /\ get3 (v3 tl) 1 = -1 /\
    get3 (v3 br) 0 = 1 /\ get3 (v3 br) 1 = 1 /\
    get3 (v3 (project P (Vec4 (Arr4 px py (- zNear) 1)))) 2 = -1 /\
    get3 (v3 (project P (Vec4 (Arr4 px py (- zFar) 1)))) 2 = 1.
Proof.
  intros [[[l t]] [[r b]]] zNear zFar pmProj d pw px py.
  cbn [get2 v2 vTopLeft vBottomRight a2_0 a2_1]. cbv zeta.
  intros Hx Hy Hd Hz Hn Hf.
  unfold makeProjection_rect. cbn [get2 v2 vTopLeft vBottomRight a2_0 a2_1].
  rewrite makeProjection_entries. cbv zeta.
  repeat split; cbn; field; repeat split; lra.
Qed.

Lemma X25_project_maps_frustum_to_cube_witness :
  let eye := Rect2 (Vec2 (Arr2 (-1) (-2))) (Vec2 (Arr2 3 1)) in
  let junk := Mat44 (Arr4 (Arr4 9 9 9 9) (Arr4 9 9 9 9) (Arr4 9 9 9 9)
                          (Arr4 9 9 9 9)) in
  let P := makeProjection_rect eye 1 10 junk in
  (3 <> -1 /\ 1 <> -2 /\ 5 <> 0 /\ 1 <> 10 /\ 1 <> 0 /\ 10 <> 0) /\
  get3 (v3 (project P (Vec4 (Arr4 (-1 * 5) (-2 * 5) (- 5) 1)))) 0 = -1 /\
  get3 (v3 (project P (Vec4 (Arr4 0 0 (- 10) 1)))) 2 = 1.
Proof.
  intros eye junk P.
  assert (H1 : 3 <> -1) by lra. assert (H2 : 1 <> -2) by lra.
  assert (H3 : 5 <> 0) by lra. assert (H4 : 1 <> 10) by lra.
  assert (H5 : 1 <> 0) by lra. assert (H6 : 10 <> 0) by lra.
  split; [repeat split; assumption|].
  destruct (X25_project_maps_frustum_to_cube eye junk 1 0 0
              H1 H2 H3 H4 H5 H6) as (Hx & _ & _ & _ & _ & Hfar).
  split; [exact Hx | exact Hfar].
Defined.

(** X26: over the reals, [project] does not change when the four
    homogeneous coordinates of the point are multiplied by the same
    [s <> 0], provided component 3 of [matMul44 p P] is not zero. *)
Theorem X26_project_scale_invariant :
  forall (P : HmdMatrix44_t R) (p : HmdVector4_t R) (s : R),
    s <> 0 -> get4 (v4 (matMul44 p P)) 3 <> 0 ->
    project P (vec4_scale s p) = project P p.
Proof.
  intros P p s Hs Hw.
  assert (Hsc : forall i : nat, (i < 4)%nat ->
            get4 (v4 (matMul44 (vec4_scale s p) P)) i =
            s * get4 (v4 (matMul44 p P)) i).
  { intros i Hi. rewrite !matMul44_entry, !sigma4_real by assumption.
    cbn. ring. }
  rewrite !project_reciprocal. cbv zeta. rewrite !Hsc by lia.
  cbn [s_mul s_div s_one R_Scalar].
  set (n3 := get4 (v4 (matMul44 p P)) 3) in *.
  do 2 f_equal; field; split; assumption.
Qed.

Lemma X26_project_scale_invariant_witness :
  let P := Mat44 (Arr4 (Arr4 1 0 0 0) (Arr4 0 1 0 0) (Arr4 0 0 1 0)
                       (Arr4 0 0 (-1) 0)) in
  let p := Vec4 (Arr4 1 2 (-4) 1) in
  (3 <> 0 /\ get4 (v4 (matMul44 p P)) 3 <> 0) /\
  project P (vec4_scale 3 p) = project P p.
Proof.
  intros P p.
  assert (Hs : 3 <> 0) by lra.
  assert (Hw : get4 (v4 (matMul44 p P)) 3 <> 0) by (cbn; lra).
  split; [split; assumption|].
  exact (@X26_project_scale_invariant P p 3 Hs Hw).
Defined.
End Projection.

(** ** Quaternions and their matrices *)

Section QuaternionMatrix.
Local Open Scope R_scope.

Lemma rotation_matrix_entries (qw qx qy qz : R) :
  rotation_matrix (Quat qw qx qy qz) =
  Mat34 (Arr3
    (Arr4 (qw * qw + qx * qx - qy * qy - qz * qz) (2 * (qx * qy - qw * qz))
          (2 * (qx * qz + qw * qy)) 0)
    (Arr4 (2 * (qx * qy + qw * qz)) (qw * qw - qx * qx + qy * qy - qz * qz)
          (2 * (qy * qz - qw * qx)) 0)
    (Arr4 (2 * (qx * qz - qw * qy)) (2 * (qy * qz + qw * qx))
          (qw * qw - qx * qx - qy * qy + qz * qz) 0)).
Proof.
  unfold rotation_matrix. cbn. do 2 f_equal; f_equal; ring.
Qed.

Lemma sqrt_double_square (c : R) : sqrt (2 * c * (2 * c)) = 2 * Rabs c.
Proof.
  replace (2 * c * (2 * c)) with (Rsqr (2 * c)) by (unfold Rsqr; ring).
  rewrite sqrt_Rsqr_abs, Rabs_mult, (Rabs_pos_eq 2) by lra. reflexivity.
Qed.

(** In a diagonal branch the radicand [rad] is four times the square of
    the component [c] of the quaternion, and at least one. *)
Ltac diagonal_branch a00 a11 a22 c rad :=
  assert (Hrad : 1 <= rad)
    by (destruct (Rle_dec 0 a00); destruct (Rle_dec 0 a11);
        destruct (Rle_dec 0 a22); lra);
  assert (Heq : rad = 2 * c * (2 * c)) by (subst a00 a11 a22; nra);
  rewrite Heq in *; rewrite sqrt_double_square;
  assert (Hc : c <> 0) by nra;
  destruct (Rle_dec 0 c);
    [ right; rewrite Rabs_pos_eq by assumption
    | left; rewrite Rabs_left by lra ];
  apply quat_ext; cbn; subst a00 a11 a22; field; assumption.

Lemma from_rotation_matrix_sign (q : HmdQuaternion_t R) :
  norm2 q = 1 ->
  quaternionFromRotationMatrix (rotation_matrix q) = q \/
  quaternionFromRotationMatrix (rotation_matrix q) = quat_opp q.
Proof.
  destruct q as [qw qx qy qz]. unfold norm2; cbn [w x y z]. intros Hu.
  rewrite rotation_matrix_entries.
  rewrite (quaternionFromRotationMatrix_branches (D := R)). cbv zeta.
  cbn [get34 get3 get4 m34 a3_0 a3_1 a3_2 a4_0 a4_1 a4_2 a4_3 promote
       R_Promote s_add s_gt s_zero R_Scalar].
  set (a00 := qw * qw + qx * qx - qy * qy - qz * qz).
  set (a11 := qw * qw - qx * qx + qy * qy - qz * qz).
  set (a22 := qw * qw - qx * qx - qy * qy + qz * qz).
  destruct (Rgtb (a00 + a11 + a22) 0) eqn:Ht.
  - apply Rgtb_true in Ht. unfold extract, extract_trace.
    cbn [get34 get3 get4 m34 a3_0 a3_1 a3_2 a4_0 a4_1 a4_2 a4_3 promote
         R_Promote s_add s_sub s_mul s_div s_neg s_half s_quarter s_one
         m_sqrt R_Libm R_Scalar w x y z].
    fold a00 a11 a22.
    replace (a00 + a11 + a22 + 1) with (2 * qw * (2 * qw))
      by (subst a00 a11 a22; nra).
    rewrite sqrt_double_square.
    assert (Hw : qw <> 0) by (subst a00 a11 a22; nra).
    destruct (Rle_dec 0 qw) as [Hp | Hn].
    + left. rewrite Rabs_pos_eq by assumption.
      apply quat_ext; cbn; field; assumption.
    + right. rewrite Rabs_left by lra.
      apply quat_ext; cbn; field; assumption.
  - apply Rgtb_false in Ht.
    destruct (Rgtb a00 a11) eqn:H01; destruct (Rgtb a00 a22) eqn:H02;
      destruct (Rgtb a11 a22) eqn:H12; cbn [andb];
      repeat match goal with
             | H : Rgtb _ _ = true |- _ => apply Rgtb_true in H
             | H : Rgtb _ _ = false |- _ => apply Rgtb_false in H
             end;
      unfold extract, extract_m00, extract_m11, extract_m22;
      cbn [get34 get3 get4 m34 a3_0 a3_1 a3_2 a4_0 a4_1 a4_2 a4_3 promote
           R_Promote s_add s_sub s_mul s_div s_neg s_half s_two s_quarter
           s_one m_sqrt R_Libm R_Scalar w x y z];
      fold a00 a11 a22;
      match goal with
      | |- context [sqrt (1 + a00 - a11 - a22)] =>
          diagonal_branch a00 a11 a22 qx (1 + a00 - a11 - a22)
      | |- context [sqrt (1 + a11 - a00 - a22)] =>
          diagonal_branch a00 a11 a22 qy (1 + a11 - a00 - a22)
      | |- context [sqrt (1 + a22 - a00 - a11)] =>
          diagonal_branch a00 a11 a22 qz (1 + a22 - a00 - a11)
      end.
Qed.

(** X27: over the reals, [quaternionFromRotationMatrix] inverts the
    passage from a unit quaternion to the matrix of its rotation, up to
    the sign of the quaternion: on the matrix whose columns are the images
    of the basis vectors by [quaternionRotateVector q] it returns [q] or
    [- q], and it returns [q] itself when [w > 0] and the trace is
    positive. *)
Theorem X27_matrix_round_trip :
  forall q : HmdQuaternion_t R,
    norm2 q = 1 ->
    let M := rotation_matrix q in
    let r : HmdQuaternion_t R := quaternionFromRotationMatrix M in
    (r = q \/ r = quat_opp q) /\
    (0 < w q -> get34 M 0 0 + get34 M 1 1 + get34 M 2 2 > 0 -> r = q).
Proof.
  intros q Hu M r. subst M r.
  pose proof (@from_rotation_matrix_sign q Hu) as Hs.
  split; [exact Hs|]. intros Hw Ht.
  destruct Hs as [Hs | Hs]; [exact Hs|]. exfalso.
  pose proof (@trace_branch_w (rotation_matrix q) Ht) as [_ Hpos].
  rewrite Hs in Hpos. destruct q as [qw qx qy qz]. cbn in Hpos, Hw. lra.
Qed.

Lemma X27_matrix_round_trip_witness :
  let q := Quat 1 0 0 0 in
  let M := rotation_matrix q in
  (norm2 q = 1 /\ 0 < w q /\ get34 M 0 0 + get34 M 1 1 + get34 M 2 2 > 0) /\
  quaternionFromRotationMatrix M = q.
Proof.
  intros q M.
  assert (Hu : norm2 q = 1) by (unfold norm2; cbn; lra).
  assert (Hw : 0 < w q) by (cbn; lra).
  assert (Ht : get34 M 0 0 + get34 M 1 1 + get34 M 2 2 > 0) by (cbn; lra).
  split; [repeat split; assumption|].
  exact (proj2 (@X27_matrix_round_trip q Hu) Hw Ht).
Defined.

(** X28: over the reals, the matrix of the rotation by [q] acts through
    [matMul33] on a vector as [quaternionRotateVector q] does, for every
    quaternion, and the matrix of [quaternionConjugate q] is its
    [transposeMul33]. *)
Theorem X28_matrix_acts_as_quaternion :
  forall (q : HmdQuaternion_t R) (a : array3 R) (r : HmdVector3_t R)
         (result : HmdMatrix34_t R),
    v3 (matMul33_mv r (rotation_matrix q) (Vec3 a)) =
      v3d (quaternionRotateVector q (Vec3d a) false) /\
    rotation_matrix (quaternionConjugate q) =
      transposeMul33 result (rotation_matrix q).
Proof.
  intros [qw qx qy qz] [a0 a1 a2] r result. split.
  - rewrite rotation_matrix_entries. cbn. f_equal; ring.
  - unfold quaternionConjugate. cbn [w x y z s_neg R_Scalar].
    rewrite !rotation_matrix_entries.
    unfold transposeMul33, for_loop, set34. cbn.
    apply f_equal; apply f_equal3; apply f_equal4; ring.
Qed.

(** X29: over the reals, the matrix of a product of quaternions is, on the
    3x3 block, the [matMul33] product of their matrices. *)
Theorem X29_matrix_of_product :
  forall (p q : HmdQuaternion_t R) (result : HmdMatrix34_t R) (i j : nat),
    (i < 3)%nat -> (j < 3)%nat ->
    get34 (rotation_matrix (quat_mul p q)) i j =
    get34 (matMul33 result (rotation_matrix p) (rotation_matrix q)) i j.
Proof.
  intros [pw px py pz] [qw qx qy qz] result i j Hi Hj.
  unfold quat_mul. cbn [w x y z s_add s_sub s_mul R_Scalar].
  rewrite !rotation_matrix_entries.
  index3_cases Hi; index3_cases Hj; cbn; ring.
Qed.

Lemma X29_matrix_of_product_witness :
  let p := Quat 0 1 0 0 in
  let q := Quat 1 2 3 4 in
  let junk := Mat34 (Arr3 (Arr4 9 9 9 9) (Arr4 9 9 9 9) (Arr4 9 9 9 9)) in
  ((2 < 3)%nat /\ (1 < 3)%nat) /\
  get34 (rotation_matrix (quat_mul p q)) 2 1 =
  get34 (matMul33 junk (rotation_matrix p) (rotation_matrix q)) 2 1.
Proof.
  intros p q junk.
  assert (H2 : (2 < 3)%nat) by lia. assert (H1 : (1 < 3)%nat) by lia.
  split; [split; assumption|].
  exact (X29_matrix_of_product p q junk H2 H1).
Defined.
End QuaternionMatrix.

(** * The header in floating point: where exact laws stop *)

(** ** [project]: product with the reciprocal *)

Section ProjectFloat.
#[local] Existing Instance binary32.
Local Open Scope scalar_scope.

(** The quotient form of C5 does not hold in floating point: in
    binary32, with the identity as projection matrix and the point
    [(5, 0, 0, 3)], [project] returns [5 * (1 / 3)] rounded twice, which
    is not the quotient [5 / 3]. *)
Lemma C5_quotient_counterexample :
  let five := S754_finite false 10485760 (-21) in
  let three := S754_finite false 12582912 (-22) in
  let P := Mat44 (Arr4 (Arr4 s_one s_zero s_zero s_zero)
                       (Arr4 s_zero s_one s_zero s_zero)
                       (Arr4 s_zero s_zero s_one s_zero)
                       (Arr4 s_zero s_zero s_zero s_one)) in
  let p := Vec4 (Arr4 five s_zero s_zero three) in
  let ndcP := v4 (matMul44 p P) in
  project P p <>
  Vec3 (Arr3 (get4 ndcP 0 / get4 ndcP 3) (get4 ndcP 1 / get4 ndcP 3)
             (get4 ndcP 2 / get4 ndcP 3)).
Proof.
  intros five three P p ndcP H.
  apply (f_equal (fun r => get3 (v3 r) 0)) in H.
  vm_compute in H. discriminate H.
Qed.
End ProjectFloat.

(** C5: for every 4x4 matrix [P] and 4-vector [p], [project P p] is the
    3-vector of the components 0, 1 and 2 of [matMul44 p P], each
    multiplied by [pd = 1 / w], the reciprocal of component 3 of that
    product, and component [i] of [matMul44 a b] is the sum over [k] of
    [a[k] * b[i][k]] (row [i] of [b]), in every scalar arithmetic; over the
    reals the product with the reciprocal is the quotient by [w], and the
    row dot product differs from the column dot product at some input. *)
Theorem C5_project_reciprocal_multiply :
  (forall (T : Type) (ST : Scalar T) (P : HmdMatrix44_t T)
          (p : HmdVector4_t T),
      let ndcP := v4 (matMul44 p P) in
      let pd := (s_one / get4 ndcP 3)%S in
      project P p =
      Vec3 (Arr3 (get4 ndcP 0 * pd)%S (get4 ndcP 1 * pd)%S
                 (get4 ndcP 2 * pd)%S)) /\
  (forall (T : Type) (ST : Scalar T) (a : HmdVector4_t T)
          (b : HmdMatrix44_t T),
      v4 (matMul44 a b) =
      Arr4 (sigma 4 (fun k => get4 (v4 a) k * get44 b 0 k)%S)
           (sigma 4 (fun k => get4 (v4 a) k * get44 b 1 k)%S)
           (sigma 4 (fun k => get4 (v4 a) k * get44 b 2 k)%S)
           (sigma 4 (fun k => get4 (v4 a) k * get44 b 3 k)%S)) /\
  (forall (P : HmdMatrix44_t R) (p : HmdVector4_t R),
      let ndcP := v4 (matMul44 p P) in
      project P p =
      Vec3 (Arr3 (get4 ndcP 0 / get4 ndcP 3)%R
                 (get4 ndcP 1 / get4 ndcP 3)%R
                 (get4 ndcP 2 / get4 ndcP 3)%R)) /\
  (exists (a : HmdVector4_t R) (b : HmdMatrix44_t R),
      get4 (v4 (matMul44 a b)) 0 <> column_dot a b 0).
Proof.
  destruct project_quotient_real as (Hq & Hrow & Hcol).
  split; [|split; [|split]].
  - intros T ST P p. reflexivity.
  - exact Hrow.
  - exact Hq.
  - exact Hcol.
Qed.

(** ** [matMul33]: the left identity law *)

Section IdentityLawFloat.
#[local] Existing Instance binary32.
Local Open Scope scalar_scope.

(** [1.0f * f] is [f] for a float of the format: the product of the
    mantissas is shifted back by the 23 bits it gained. *)
Lemma SFmul_one_l (s : bool) (m : positive) (e : Z) :
  bounded 24 128 m e = true ->
  SFmul 24 128 (S754_finite false 8388608 (-23)) (S754_finite s m e) =
  S754_finite s m e.
Proof.
  intros Hb. unfold bounded, canonical_mantissa in Hb.
  apply andb_prop in Hb. destruct Hb as [Hc He].
  apply Z.eqb_eq in Hc. apply Z.leb_le in He.
  cbn [SFmul xorb]. unfold binary_round_aux, shr_fexp.
  cbn [Pos.mul PosDef.Pos.mul Zdigits2 digits2_pos].
  set (d := digits2_pos m) in *.
  match goal with
  | |- context [fexp 24 128 ?a] =>
      replace a with (IntDef.Z.add (Zpos d) e) by lia
  end.
  rewrite Hc.
  replace (IntDef.Z.sub e (IntDef.Z.add (-23) e)) with 23%Z by lia.
  cbn [shr shr_record_of_loc iter_pos shr_1 orb].
  cbn [round_nearest_even loc_of_shr_record shr_m shr_r shr_s Zdigits2].
  fold d.
  replace (IntDef.Z.add (IntDef.Z.add (-23) e) 23) with e by lia.
  rewrite Hc.
  replace (IntDef.Z.sub e e) with 0%Z by lia.
  cbn [shr shr_record_of_loc shr_m].
  replace (IntDef.Z.leb e (IntDef.Z.sub 128 24)) with true; [reflexivity|].
  symmetry. apply Z.leb_le. exact He.
Qed.

Lemma binary32_one_mul (f : spec_float) :
  finite_binary32 f = true -> s_one * f = f.
Proof.
  destruct f as [s | s | | s m e]; try discriminate; intros Hf.
  - destruct s; reflexivity.
  - apply SFmul_one_l. exact Hf.
Qed.

Lemma binary32_zero_mul (f : spec_float) :
  finite_binary32 f = true -> exists s : bool, s_zero * f = S754_zero s.
Proof.
  destruct f as [s | s | | s m e]; try discriminate; intros _; eexists;
    reflexivity.
Qed.

Lemma binary32_add_zero_r (f : spec_float) (s : bool) :
  finite_binary32 f = true ->
  drop_zero_sign f + S754_zero s = drop_zero_sign f.
Proof.
  destruct f as [s' | s' | | s' m e]; try discriminate; intros _; destruct s;
    reflexivity.
Qed.

Lemma binary32_zero_add (f : spec_float) :
  finite_binary32 f = true -> s_zero + f = drop_zero_sign f.
Proof.
  destruct f as [s' | s' | | s' m e]; try discriminate; intros _;
    try destruct s'; reflexivity.
Qed.

Lemma binary32_zero_add_zero (s : bool) : s_zero + S754_zero s = s_zero.
Proof. destruct s; reflexivity. Qed.

(** A float of the format compares equal to itself without the sign of
    its zero. *)
Lemma SFeqb_drop_zero_sign (f : spec_float) :
  finite_binary32 f = true -> SFeqb (drop_zero_sign f) f = true.
Proof.
  destruct f as [s | s | | s m e]; try discriminate; intros _.
  - destruct s; reflexivity.
  - unfold SFeqb, SFcompare; cbn [drop_zero_sign].
    change (PosDef.Pos.compare_cont Eq m m) with (Pos.compare m m).
    rewrite Z.compare_refl, Pos.compare_refl. destruct s; reflexivity.
Qed.

(** The three accumulated sums of a column against the rows of the
    identity. *)
Lemma identity_rows (m0 m1 m2 : spec_float) :
  finite_binary32 m0 = true -> finite_binary32 m1 = true ->
  finite_binary32 m2 = true ->
  s_zero + s_one * m0 + s_zero * m1 + s_zero * m2 = drop_zero_sign m0 /\
  s_zero + s_zero * m0 + s_one * m1 + s_zero * m2 = drop_zero_sign m1 /\
  s_zero + s_zero * m0 + s_zero * m1 + s_one * m2 = drop_zero_sign m2.
Proof.
  intros H0 H1 H2.
  destruct (@binary32_zero_mul m0 H0) as [z0 E0].
  destruct (@binary32_zero_mul m1 H1) as [z1 E1].
  destruct (@binary32_zero_mul m2 H2) as [z2 E2].
  rewrite E0, E1, E2, !binary32_one_mul by assumption.
  rewrite !binary32_zero_add_zero, !binary32_zero_add by assumption.
  rewrite !binary32_add_zero_r by assumption.
  repeat split; reflexivity.
Qed.

Lemma float_identity_law (junk I M : HmdMatrix34_t spec_float) (i j : nat) :
  float_identity_block I ->
  (forall k : nat, k < 3 -> finite_binary32 (get34 M k j) = true) ->
  i < 3 -> j < 3 ->
  get34 (matMul33 junk I M) i j = drop_zero_sign (get34 M i j).
Proof.
  intros HI HM Hi Hj.
  rewrite matMul33_block by assumption. unfold sigma.
  cbn [fold_left seq].
  rewrite !HI by (assumption || lia).
  destruct (@identity_rows _ _ _ (HM 0 ltac:(lia)) (HM 1 ltac:(lia))
              (HM 2 ltac:(lia))) as (R0 & R1 & R2).
  destruct (lt_3_cases Hi) as [-> | [-> | ->]]; cbn [Nat.eqb]; assumption.
Qed.

(** The left identity law of C8 does not hold for every matrix of
    floats: in binary32, with the identity block on the left and an
    infinite entry in [M], [matMul33 I M] does not have the entry
    [M[0][0] = 2] but a NaN, since [0 * inf] is a NaN. *)
Lemma C8_identity_law_counterexample :
  let inf := S754_infinity false in
  let junk := Mat34 (Arr3 (Arr4 s_zero s_zero s_zero s_zero)
                          (Arr4 s_zero s_zero s_zero s_zero)
                          (Arr4 s_zero s_zero s_zero s_zero)) in
  let I := Mat34 (Arr3 (Arr4 s_one s_zero s_zero s_zero)
                       (Arr4 s_zero s_one s_zero s_zero)
                       (Arr4 s_zero s_zero s_one s_zero)) in
  let M := Mat34 (Arr3 (Arr4 s_two s_zero s_zero s_zero)
                       (Arr4 inf s_one s_zero s_zero)
                       (Arr4 s_zero s_zero s_one s_zero)) in
  get34 (matMul33 junk I M) 0 0 = S754_nan /\
  get34 (matMul33 junk I M) 0 0 <> get34 M 0 0.
Proof.
  intros inf junk I M. split; [reflexivity|].
  intros H. vm_compute in H. discriminate H.
Qed.

(** C8: for all 3x4 matrices [A] and [B], entry [[i][j]] of
    [matMul33 A B] is the sum over [k] in [0 .. 2] of [A[i][k] * B[k][j]]
    for [i], [j] in [0 .. 2], and the translation column is not written:
    entry [[i][3]] keeps the initial content of the local [result],
    whatever [A] and [B] are; in every scalar arithmetic.  With the
    identity block on the left, [matMul33 I M] has the 3x3 block of [M]
    over the reals for every [M], and in binary32 for every [M] whose
    block entries are finite, up to the sign of zero: the entry is [M]'s
    with a negative zero returned as the positive zero, so it compares
    equal to [M]'s. *)
Theorem C8_matMul33_block_and_identity :
  (forall (T : Type) (ST : Scalar T) (result A B : HmdMatrix34_t T),
      (forall i j : nat, i < 3 -> j < 3 ->
         get34 (matMul33 result A B) i j =
         sigma 3 (fun k => get34 A i k * get34 B k j)) /\
      (forall i : nat, i < 3 ->
         get34 (matMul33 result A B) i 3 = get34 result i 3)) /\
  (forall (result I M : HmdMatrix34_t R),
      identity_block I ->
      forall i j : nat, i < 3 -> j < 3 ->
        get34 (matMul33 result I M) i j = get34 M i j) /\
  (forall (result I M : HmdMatrix34_t spec_float),
      float_identity_block I ->
      (forall i j : nat, i < 3 -> j < 3 ->
         finite_binary32 (get34 M i j) = true) ->
      forall i j : nat, i < 3 -> j < 3 ->
        get34 (matMul33 result I M) i j = drop_zero_sign (get34 M i j) /\
        SFeqb (get34 (matMul33 result I M) i j) (get34 M i j) = true).
Proof.
  destruct matMul33_laws_real as [Hgen Hreal].
  split; [exact Hgen|]. split; [exact Hreal|].
  intros result I M HI HM i j Hi Hj.
  assert (E : get34 (matMul33 result I M) i j = drop_zero_sign (get34 M i j)).
  { apply float_identity_law; try assumption.
    intros k Hk. apply HM; assumption. }
  split; [exact E|]. rewrite E. apply SFeqb_drop_zero_sign.
  apply HM; assumption.
Qed.

Lemma C8_matMul33_block_and_identity_witness :
  let junk := Mat34 (Arr3 (Arr4 s_two s_two s_two s_two)
                          (Arr4 s_two s_two s_two s_two)
                          (Arr4 s_two s_two s_two s_two)) in
  let I := Mat34 (Arr3 (Arr4 s_one s_zero s_zero s_two)
                       (Arr4 s_zero s_one s_zero s_two)
                       (Arr4 s_zero s_zero s_one s_two)) in
  let M := Mat34 (Arr3 (Arr4 s_two (- s_one) s_zero s_one)
                       (Arr4 (s_one + s_two) (S754_zero true) s_half s_one)
                       (Arr4 s_quarter s_one (- s_two) s_one)) in
  (float_identity_block I /\
   (forall i j : nat, i < 3 -> j < 3 ->
      finite_binary32 (get34 M i j) = true) /\ 1 < 3 /\ 2 < 3) /\
  get34 (matMul33 junk I M) 1 2 = s_half /\
  get34 (matMul33 junk I M) 1 1 = S754_zero false /\
  get34 (matMul33 junk I M) 1 3 = s_two.
Proof.
  intros junk I M.
  assert (HI : float_identity_block I).
  { intros i j Hi Hj.
    destruct (lt_3_cases Hi) as [-> | [-> | ->]];
      destruct (lt_3_cases Hj) as [-> | [-> | ->]]; reflexivity. }
  assert (HM : forall i j : nat, i < 3 -> j < 3 ->
                 finite_binary32 (get34 M i j) = true).
  { intros i j Hi Hj.
    destruct (lt_3_cases Hi) as [-> | [-> | ->]];
      destruct (lt_3_cases Hj) as [-> | [-> | ->]]; reflexivity. }
  assert (H1 : 1 < 3) by lia. assert (H2 : 2 < 3) by lia.
  destruct C8_matMul33_block_and_identity as (Hgen & _ & Hfloat).
  split; [repeat split; assumption|]. split; [|split].
  - rewrite (proj1 (Hfloat junk I M HI HM 1 2 H1 H2)). reflexivity.
  - rewrite (proj1 (Hfloat junk I M HI HM 1 1 H1 H1)). reflexivity.
  - rewrite (proj2 (Hgen _ binary32 junk I M) 1 H1). reflexivity.
Defined.
End IdentityLawFloat.

(** ** [quaternionFromRotationMatrix]: the branch taken on floats *)

Section ShepperdFloat.



End ShepperdFloat.

Section ShepperdFloatRule.





(** On that matrix the branch is that of [m[0][0]] and [w] is zero. *)
Example rounded_trace_runs_diagonal_branch :
  let one := S754_finite false 8388608 (-23) in
  let tiny := S754_finite false 8388608 (-48) in
  let zero := S754_zero false in
  let M := Mat34 (Arr3 (Arr4 one zero zero zero) (Arr4 zero tiny zero zero)
                       (Arr4 zero zero (SFopp one) zero)) in
  float_trace M = zero /\
  quaternionFromRotationMatrix_float (fun f => f) (fun f => f) M =
  negate_xyz_float (extract_float (fun f => f) (fun f => f) (BDiag 0) M) /\
  w (quaternionFromRotationMatrix_float (fun f => f) (fun f => f) M) = zero.
Proof. repeat split; reflexivity. Qed.

(** With a NaN on the diagonal every comparison is false and the last
    branch runs, whatever the other entries: [diag(5, NaN, 1)] runs the
    branch of [m[2][2]]. *)
Example nan_diagonal_runs_last_branch :
  let five := S754_finite false 10485760 (-21) in
  let one := S754_finite false 8388608 (-23) in
  let zero := S754_zero false in
  let M := Mat34 (Arr3 (Arr4 five zero zero zero)
                       (Arr4 zero S754_nan zero zero)
                       (Arr4 zero zero one zero)) in
  quaternionFromRotationMatrix_float (fun f => f) (fun f => f) M =
  negate_xyz_float (extract_float (fun f => f) (fun f => f) (BDiag 2) M).
Proof. reflexivity. Qed.
End ShepperdFloatRule.
